(** * Flow Builder (src/pages/index.js): graph store, edit session and
    JSON import/export, embedded in Rocq.

    The component keeps its state in React hooks and changes it in event
    handlers.  Each handler is embedded as a function on an explicit [state]
    record; values held by the store are JavaScript values in their JSON
    fragment, because the import handler installs whatever the file
    contains.  Exceptions are explicit ([result]).

    Modelling conventions:
    - a JavaScript string is a [string]: a sequence of code units below 256;
    - a JavaScript number is an integer ([Z]), printed in positional
      notation; number literals with a fraction or an exponent are outside
      the model, and the parser below rejects them;
    - an object is an association list in property order; the engine's
      reordering of array-index keys is not modelled (no object of this
      program has such keys);
    - [uuidv4()] is an input of the handler that calls it. *)

From Stdlib Require Import List String Ascii ZArith Lia Bool Arith.
From Stdlib Require Import Decimal DecimalString DecimalZ DecimalPos.
Import ListNotations.
Set Warnings "-register-all".
Local Open Scope string_scope.
Local Open Scope Z_scope.

(** ** JavaScript values and exceptions *)

Inductive value : Type :=
| VNull
| VBool (b : bool)
| VNum (n : Z)
| VStr (s : string)
| VArr (l : list value)
| VObj (fs : list (string * value)).

(** The result of reading a property: [None] is [undefined]. *)
Definition jsval := option value.

Inductive exn : Type := SyntaxError | TypeError.

Inductive result (A : Type) : Type :=
| Ok (a : A)
| Throw (e : exn).
Arguments Ok {A} a.
Arguments Throw {A} e.

Definition bind {A B} (r : result A) (k : A -> result B) : result B :=
  match r with
  | Ok a => k a
  | Throw e => Throw e
  end.

Notation "x <- r ;; k" := (bind r (fun x => k))
  (at level 61, r at next level, right associativity).
Notation "' p <- r ;; k" := (bind r (fun p => k))
  (at level 61, p pattern, r at next level, right associativity).

(** [try { ... } catch { ... }] *)
Definition try_catch {A} (r : result A) (handler : A) : A :=
  match r with
  | Ok a => a
  | Throw _ => handler
  end.

(** Induction on a value with the hypothesis for every element of an array
    and every member of an object. *)
Section ValueInd.
Variable P : value -> Prop.
Hypothesis Hnull : P VNull.
Hypothesis Hbool : forall b, P (VBool b).
Hypothesis Hnum : forall n, P (VNum n).
Hypothesis Hstr : forall s, P (VStr s).
Hypothesis Harr : forall l, Forall P l -> P (VArr l).
Hypothesis Hobj : forall fs, Forall (fun kv => P (snd kv)) fs -> P (VObj fs).

Fixpoint value_ind' (v : value) : P v :=
  match v with
  | VNull => Hnull
  | VBool b => Hbool b
  | VNum n => Hnum n
  | VStr s => Hstr s
  | VArr l =>
      Harr l ((fix go (l : list value) : Forall P l :=
                 match l with
                 | [] => Forall_nil _
                 | x :: xs => Forall_cons x (value_ind' x) (go xs)
                 end) l)
  | VObj fs =>
      Hobj fs ((fix go (fs : list (string * value))
                  : Forall (fun kv => P (snd kv)) fs :=
                  match fs with
                  | [] => Forall_nil _
                  | kv :: rest =>
                      Forall_cons kv (value_ind' (snd kv)) (go rest)
                  end) fs)
  end.
End ValueInd.

(** ** Property access, truthiness, strict equality *)

(** Own-property lookup in an object's property list. *)
Fixpoint assoc (k : string) (fs : list (string * value)) : jsval :=
  match fs with
  | [] => None
  | (k', v) :: rest => if String.eqb k k' then Some v else assoc k rest
  end.

(** [{...fs, k: v}] for an object's property list: an existing key keeps
    its place and takes the new value, a new key goes last. *)
Fixpoint set_prop (k : string) (v : value) (fs : list (string * value))
  : list (string * value) :=
  match fs with
  | [] => [(k, v)]
  | (k', v') :: rest =>
      if String.eqb k k' then (k, v) :: rest
      else (k', v') :: set_prop k v rest
  end.

(** [v.k] for the property names this program reads ([nodes], [edges],
    [id], [source], [target], [length]): none of them is inherited from a
    prototype, [length] is an own property of arrays and strings, and
    reading a property of [null] throws. *)
Definition prop (v : value) (k : string) : result jsval :=
  match v with
  | VNull => Throw TypeError
  | VObj fs => Ok (assoc k fs)
  | VArr l =>
      if String.eqb k "length" then Ok (Some (VNum (Z.of_nat (List.length l))))
      else Ok None
  | VStr s =>
      if String.eqb k "length" then Ok (Some (VNum (Z.of_nat (String.length s))))
      else Ok None
  | VBool _ | VNum _ => Ok None
  end.

(** ToBoolean. *)
Definition truthy (v : jsval) : bool :=
  match v with
  | None => false
  | Some VNull => false
  | Some (VBool b) => b
  | Some (VNum n) => negb (Z.eqb n 0)
  | Some (VStr s) => negb (String.eqb s "")
  | Some (VArr _) => true
  | Some (VObj _) => true
  end.

(** [v === s] where [s] is a string. *)
Definition strict_eq_str (v : jsval) (s : string) : bool :=
  match v with
  | Some (VStr s') => String.eqb s' s
  | _ => false
  end.

(** ** Strings: [String.prototype.trim] *)

(** White space and line terminators among the code units below 256:
    TAB, LF, VT, FF, CR, SP and NBSP. *)
Definition is_white_space (c : ascii) : bool :=
  match nat_of_ascii c with
  | 9%nat | 10%nat | 11%nat | 12%nat | 13%nat | 32%nat | 160%nat => true
  | _ => false
  end.

Fixpoint trim_start (s : string) : string :=
  match s with
  | EmptyString => EmptyString
  | String c s' => if is_white_space c then trim_start s' else s
  end.

Fixpoint trim_end (s : string) : string :=
  match s with
  | EmptyString => EmptyString
  | String c s' =>
      match trim_end s' with
      | EmptyString => if is_white_space c then EmptyString else String c EmptyString
      | r => String c r
      end
  end.

Definition trim (s : string) : string := trim_end (trim_start s).

(** A label made of white space only (the empty label included). *)
Fixpoint all_white_space (s : string) : bool :=
  match s with
  | EmptyString => true
  | String c s' => is_white_space c && all_white_space s'
  end.

(** ** Arrays and object spread *)

Section ArrayOps.
Context {A B : Type}.

(** [Array.prototype.map] with a callback [(element, index)] that may
    throw. *)
Fixpoint map_from (f : A -> nat -> result B) (i : nat) (l : list A)
  : result (list B) :=
  match l with
  | [] => Ok []
  | x :: xs =>
      y <- f x i ;;
      ys <- map_from f (S i) xs ;;
      Ok (y :: ys)
  end.

(** [Array.prototype.filter] with a predicate that may throw. *)
Fixpoint filter_list (p : A -> result bool) (l : list A) : result (list A) :=
  match l with
  | [] => Ok []
  | x :: xs =>
      keep <- p x ;;
      ys <- filter_list p xs ;;
      Ok (if keep then x :: ys else ys)
  end.
End ArrayOps.

(** [v.map(f)]: only an array has a callable [map] among JSON values. *)
Definition array_map (f : value -> nat -> result value) (v : value)
  : result value :=
  match v with
  | VArr l => l' <- map_from f 0 l ;; Ok (VArr l')
  | _ => Throw TypeError
  end.

(** [v.filter(p)]: likewise. *)
Definition array_filter (p : value -> result bool) (v : value) : result value :=
  match v with
  | VArr l => l' <- filter_list p l ;; Ok (VArr l')
  | _ => Throw TypeError
  end.

(** The key of index [i]: its decimal numeral. *)
Definition index_key (i : nat) : string :=
  NilZero.string_of_uint (Nat.to_uint i).

Fixpoint indexed {A} (f : A -> value) (i : nat) (l : list A)
  : list (string * value) :=
  match l with
  | [] => []
  | x :: xs => (index_key i, f x) :: indexed f (S i) xs
  end.

(** The own enumerable properties that [{...v}] copies: those of an object,
    the elements of an array, the code units of a string, and nothing for
    [null], a boolean or a number. *)
Definition spread (v : value) : list (string * value) :=
  match v with
  | VObj fs => fs
  | VArr l => indexed (fun x => x) 0 l
  | VStr s =>
      indexed (fun c => VStr (String c EmptyString)) 0 (list_ascii_of_string s)
  | VNull | VBool _ | VNum _ => []
  end.

(** ** Component state *)

(** [currentNode]: the node being edited in the modal.  The three fields
    are strings, as [handleAddNode] and the form fields set them;
    [handleNodeClick] copies them from a node, and is modelled on the
    nodes from which it copies strings. *)
Record EditBuffer : Type := {
  id : string;
  label : string;
  description : string;
}.

Record state : Type := {
  nodes : value;
  edges : value;
  showModal : bool;
  isEditMode : bool;
  error : string;
  currentNode : EditBuffer;
}.

Definition setNodes (v : value) (st : state) : state :=
  {| nodes := v; edges := edges st; showModal := showModal st;
     isEditMode := isEditMode st; error := error st;
     currentNode := currentNode st |}.

Definition setEdges (v : value) (st : state) : state :=
  {| nodes := nodes st; edges := v; showModal := showModal st;
     isEditMode := isEditMode st; error := error st;
     currentNode := currentNode st |}.

Definition setShowModal (b : bool) (st : state) : state :=
  {| nodes := nodes st; edges := edges st; showModal := b;
     isEditMode := isEditMode st; error := error st;
     currentNode := currentNode st |}.

Definition setIsEditMode (b : bool) (st : state) : state :=
  {| nodes := nodes st; edges := edges st; showModal := showModal st;
     isEditMode := b; error := error st;
     currentNode := currentNode st |}.

Definition setError (e : string) (st : state) : state :=
  {| nodes := nodes st; edges := edges st; showModal := showModal st;
     isEditMode := isEditMode st; error := e;
     currentNode := currentNode st |}.

Definition setCurrentNode (c : EditBuffer) (st : state) : state :=
  {| nodes := nodes st; edges := edges st; showModal := showModal st;
     isEditMode := isEditMode st; error := error st;
     currentNode := c |}.

(** The state of the first render: one seed node, no edges, modal closed. *)
Definition initial_state : state :=
  {| nodes :=
       VArr [VObj [("id", VStr "1");
                   ("type", VStr "default");
                   ("position", VObj [("x", VNum 100); ("y", VNum 100)]);
                   ("data", VObj [("label", VStr "Start")])]];
     edges := VArr [];
     showModal := false;
     isEditMode := false;
     error := "";
     currentNode := {| id := ""; label := ""; description := "" |} |}.

(** The edit session, as the modal shows it. *)
Inductive Session : Type := Closed | AddingNew | EditingExisting.

Definition session (st : state) : Session :=
  if showModal st then
    if isEditMode st then EditingExisting else AddingNew
  else Closed.

(** ** Handlers of the modal *)

(** [handleAddNode]: open the modal on an empty buffer. *)
Definition handleAddNode (st : state) : state :=
  setShowModal true
    (setCurrentNode {| id := ""; label := ""; description := "" |}
       (setIsEditMode false (setError "" st))).

(** [v || ''] read into the buffer: a string stays, a falsy value becomes
    the empty string, and any other value is not a string the form could
    hold ([None]). *)
Definition string_or_empty (v : jsval) : option string :=
  match v with
  | Some (VStr s) => Some s
  | _ => if truthy v then None else Some ""
  end.

(** [handleNodeClick(_, node)]: open the modal on a node of the store.
    React Flow hands over a node record: [id] a string, [data] an object
    whose [label] and [description] are strings when present.  [None]
    stands for a [node] outside that shape, on which the model is silent. *)
Definition handleNodeClick (node : value) (st : state) : option state :=
  match node with
  | VObj fs =>
      match assoc "id" fs, assoc "data" fs with
      | Some (VStr i), Some (VObj d) =>
          match string_or_empty (assoc "label" d),
                string_or_empty (assoc "description" d) with
          | Some l, Some ds =>
              Some (setShowModal true
                      (setCurrentNode {| id := i; label := l; description := ds |}
                         (setIsEditMode true (setError "" st))))
          | _, _ => None
          end
      | _, _ => None
      end
  | _ => None
  end.

(** The [data] object written by Save. *)
Definition buffer_data (c : EditBuffer) : value :=
  VObj [("label", VStr (label c)); ("description", VStr (description c))].

(** The callback of [nds.map] in the edit branch of [handleSaveNode]:
    [n.id === currentNode.id ? {...n, data: {...}} : n]. *)
Definition update_node (c : EditBuffer) (n : value) (_ : nat) : result value :=
  i <- prop n "id" ;;
  if strict_eq_str i (id c)
  then Ok (VObj (set_prop "data" (buffer_data c) (spread n)))
  else Ok n.

(** [nodes.length || 1] in the add branch, for the stores on which the
    branch completes (see [handleSaveNode]). *)
Definition length_or_one (len : Z) : Z :=
  if truthy (Some (VNum len)) then len else 1.

(** The node built in the add branch of [handleSaveNode]. *)
Definition new_node (uuid : string) (len : Z) (c : EditBuffer) : value :=
  VObj [("id", VStr uuid);
        ("position", VObj [("x", VNum 150);
                           ("y", VNum (100 + 70 * length_or_one len))]);
        ("data", buffer_data c)].

(** [nds.concat(newNode)] together with the [nodes.length] read before it.
    On an array the node is appended.  A string has [length] and [concat]
    too: the node is converted to a string and appended.  On [null] the
    read of [length] throws, and on any other value [concat] is not a
    function. *)
Definition concat_new_node (uuid : string) (c : EditBuffer) (nds : value)
  : result value :=
  match nds with
  | VArr l =>
      Ok (VArr (l ++ [new_node uuid (Z.of_nat (List.length l)) c])%list)
  | VStr s => Ok (VStr (s ++ "[object Object]"))
  | _ => Throw TypeError
  end.

(** [handleSaveNode].  [uuid] is what [uuidv4()] returns.  [Throw] means the
    exception escapes the handler or the state updater it queued. *)
Definition handleSaveNode (uuid : string) (st : state) : result state :=
  if negb (truthy (Some (VStr (trim (label (currentNode st))))))
  then Ok (setError "Label is required" st)
  else
    let st1 := setError "" st in
    if isEditMode st1 then
      nds <- array_map (update_node (currentNode st1)) (nodes st1) ;;
      Ok (setShowModal false (setNodes nds st1))
    else
      nds <- concat_new_node uuid (currentNode st1) (nodes st1) ;;
      Ok (setShowModal false (setNodes nds st1)).

(** The predicates of the two filters of [handleDeleteNode]. *)
Definition keep_node (c : EditBuffer) (n : value) : result bool :=
  i <- prop n "id" ;;
  Ok (negb (strict_eq_str i (id c))).

Definition keep_edge (c : EditBuffer) (e : value) : result bool :=
  s <- prop e "source" ;;
  if negb (strict_eq_str s (id c))
  then t <- prop e "target" ;; Ok (negb (strict_eq_str t (id c)))
  else Ok false.

(** [handleDeleteNode]. *)
Definition handleDeleteNode (st : state) : result state :=
  if isEditMode st then
    nds <- array_filter (keep_node (currentNode st)) (nodes st) ;;
    eds <- array_filter (keep_edge (currentNode st)) (edges st) ;;
    Ok (setShowModal false (setEdges eds (setNodes nds st)))
  else Ok st.

(** The callback of [nds.map] in [autoArrange]:
    [{...node, position: {x: xStart, y: yStart + idx * yGap}}]. *)
Definition xStart : Z := 100.
Definition yStart : Z := 100.
Definition yGap : Z := 80.

Definition arranged_position (idx : nat) : value :=
  VObj [("x", VNum xStart); ("y", VNum (yStart + Z.of_nat idx * yGap))].

Definition arrange_node (node : value) (idx : nat) : result value :=
  Ok (VObj (set_prop "position" (arranged_position idx) (spread node))).

(** [autoArrange]. *)
Definition autoArrange (st : state) : result state :=
  nds <- array_map arrange_node (nodes st) ;;
  Ok (setNodes nds st).

(** ** The operations of the graph store, as the modal reaches them *)

(** The modal open on the node [i] with the form holding [l] and [d]. *)
Definition editing (i l d : string) (st : state) : state :=
  setShowModal true
    (setCurrentNode {| id := i; label := l; description := d |}
       (setIsEditMode true (setError "" st))).

(** The modal open on a new node with the form holding [l] and [d]. *)
Definition adding (l d : string) (st : state) : state :=
  setCurrentNode {| id := ""; label := l; description := d |}
    (handleAddNode st).

Definition AddNode (uuid l d : string) (st : state) : result state :=
  handleSaveNode uuid (adding l d st).

Definition UpdateNode (uuid i l d : string) (st : state) : result state :=
  handleSaveNode uuid (editing i l d st).

Definition DeleteNode (i : string) (st : state) : result state :=
  handleDeleteNode (editing i "" "" st).

(** A sequence of Delete operations. *)
Fixpoint DeleteNodes (ids : list string) (st : state) : result state :=
  match ids with
  | [] => Ok st
  | i :: rest => st' <- DeleteNode i st ;; DeleteNodes rest st'
  end.

(** ** JSON text: [JSON.stringify(value, null, 2)] *)

Definition newline : ascii := "010"%char.
Definition dquote : ascii := "034"%char.
Definition backslash : ascii := "092"%char.

Fixpoint spaces (n : nat) : string :=
  match n with
  | O => EmptyString
  | S n' => String " " (spaces n')
  end.

Definition hex_digit (n : nat) : ascii :=
  match n with
  | 0 => "0" | 1 => "1" | 2 => "2" | 3 => "3" | 4 => "4"
  | 5 => "5" | 6 => "6" | 7 => "7" | 8 => "8" | 9 => "9"
  | 10 => "a" | 11 => "b" | 12 => "c" | 13 => "d" | 14 => "e"
  | _ => "f"
  end%nat%char.

(** One code unit inside a quoted string (QuoteJSONString): the quote and
    the backslash are escaped, the control characters are written with
    their short escape or as [\u00XX], anything else is itself. *)
Definition escape (c : ascii) : string :=
  let n := nat_of_ascii c in
  if Nat.eqb n 8 then String backslash "b"
  else if Nat.eqb n 9 then String backslash "t"
  else if Nat.eqb n 10 then String backslash "n"
  else if Nat.eqb n 12 then String backslash "f"
  else if Nat.eqb n 13 then String backslash "r"
  else if Nat.eqb n 34 then String backslash (String dquote EmptyString)
  else if Nat.eqb n 92 then String backslash (String backslash EmptyString)
  else if Nat.ltb n 32 then
    String backslash
      (String "u" (String "0" (String "0"
         (String (hex_digit (n / 16))
            (String (hex_digit (n mod 16)) EmptyString)))))
  else String c EmptyString.

Fixpoint quote_body (s : string) : string :=
  match s with
  | EmptyString => EmptyString
  | String c s' => escape c ++ quote_body s'
  end.

Definition quote (s : string) : string :=
  String dquote (quote_body s ++ String dquote EmptyString).

(** An integer in positional notation. *)
Definition print_number (n : Z) : string :=
  NilEmpty.string_of_int (Z.to_int n).

(** The separator between two elements or members at indentation [n]. *)
Definition separator (n : nat) : string := "," ++ String newline (spaces n).

(** SerializeJSONProperty with the gap of two spaces; [ind] is the current
    indentation.  An empty array or object is written without a line
    break. *)
Fixpoint print (ind : nat) (v : value) : string :=
  match v with
  | VNull => "null"
  | VBool true => "true"
  | VBool false => "false"
  | VNum n => print_number n
  | VStr s => quote s
  | VArr [] => "[]"
  | VArr l =>
      "[" ++ String newline (spaces (2 + ind)) ++
      String.concat (separator (2 + ind)) (map (print (2 + ind)) l) ++
      String newline (spaces ind) ++ "]"
  | VObj [] => "{}"
  | VObj fs =>
      "{" ++ String newline (spaces (2 + ind)) ++
      String.concat (separator (2 + ind))
        (map (fun kv => quote (fst kv) ++ ": " ++ print (2 + ind) (snd kv)) fs) ++
      String newline (spaces ind) ++ "}"
  end.

(** The text of a member at indentation [n]. *)
Definition member (n : nat) (kv : string * value) : string :=
  quote (fst kv) ++ ": " ++ print n (snd kv).

Definition JSON_stringify (v : value) : string := print 0 v.

(** ** JSON text: [JSON.parse] *)

Definition is_json_space (c : ascii) : bool :=
  match nat_of_ascii c with
  | 9%nat | 10%nat | 13%nat | 32%nat => true
  | _ => false
  end.

Fixpoint skip_ws (s : string) : string :=
  match s with
  | EmptyString => EmptyString
  | String c s' => if is_json_space c then skip_ws s' else s
  end.

Fixpoint strip_prefix (p s : string) : option string :=
  match p with
  | EmptyString => Some s
  | String a p' =>
      match s with
      | EmptyString => None
      | String b s' => if Ascii.eqb a b then strip_prefix p' s' else None
      end
  end.

Definition digit_of (c : ascii) : option (uint -> uint) :=
  match nat_of_ascii c with
  | 48%nat => Some D0 | 49%nat => Some D1 | 50%nat => Some D2
  | 51%nat => Some D3 | 52%nat => Some D4 | 53%nat => Some D5
  | 54%nat => Some D6 | 55%nat => Some D7 | 56%nat => Some D8
  | 57%nat => Some D9
  | _ => None
  end.

(** The longest prefix of digits, and what follows it. *)
Fixpoint scan_digits (s : string) : uint * string :=
  match s with
  | EmptyString => (Nil, EmptyString)
  | String c s' =>
      match digit_of c with
      | Some d => let (u, r) := scan_digits s' in (d u, r)
      | None => (Nil, s)
      end
  end.

(** A digit sequence with a superfluous leading zero. *)
Definition leading_zero (u : uint) : bool :=
  match u with
  | D0 Nil => false
  | D0 _ => true
  | _ => false
  end.

(** A fraction or an exponent follows: the literal is not an integer. *)
Definition starts_fraction (s : string) : bool :=
  match s with
  | String c _ => Ascii.eqb c "." || Ascii.eqb c "e" || Ascii.eqb c "E"
  | EmptyString => false
  end.

(** A number literal: an optional minus sign and an integer without
    superfluous zeros. *)
Definition parse_number (s : string) : result (Z * string) :=
  let '(negative, s1) :=
    match s with
    | String c s' => if Ascii.eqb c "-" then (true, s') else (false, s)
    | EmptyString => (false, s)
    end in
  let '(u, r) := scan_digits s1 in
  match u with
  | Nil => Throw SyntaxError
  | _ =>
      if leading_zero u || starts_fraction r then Throw SyntaxError
      else Ok (Z.of_int (if negative then Neg u else Pos u), r)
  end.

Definition hex_value (c : ascii) : option nat :=
  let n := nat_of_ascii c in
  if Nat.leb 48 n && Nat.leb n 57 then Some (n - 48)%nat
  else if Nat.leb 97 n && Nat.leb n 102 then Some (n - 87)%nat
  else if Nat.leb 65 n && Nat.leb n 70 then Some (n - 55)%nat
  else None.

(** The code unit of [\uXXXX], when it is below 256. *)
Definition unicode_escape (h1 h2 h3 h4 : ascii) : option ascii :=
  match hex_value h1, hex_value h2, hex_value h3, hex_value h4 with
  | Some a, Some b, Some c, Some d =>
      if Nat.eqb a 0 && Nat.eqb b 0 then Some (ascii_of_nat (16 * c + d))
      else None
  | _, _, _, _ => None
  end.

(** The code unit of a short escape. *)
Definition short_escape (c : ascii) : option ascii :=
  match nat_of_ascii c with
  | 34%nat => Some dquote
  | 92%nat => Some backslash
  | 47%nat => Some "/"%char
  | 98%nat => Some "008"%char
  | 102%nat => Some "012"%char
  | 110%nat => Some "010"%char
  | 114%nat => Some "013"%char
  | 116%nat => Some "009"%char
  | _ => None
  end.

(** The rest of a string literal, after its opening quote. *)
Fixpoint parse_chars (s : string) : result (string * string) :=
  match s with
  | EmptyString => Throw SyntaxError
  | String c s' =>
      if Ascii.eqb c dquote then Ok (EmptyString, s')
      else if Ascii.eqb c backslash then
        match s' with
        | EmptyString => Throw SyntaxError
        | String e s'' =>
            match short_escape e with
            | Some ch =>
                '(str, r) <- parse_chars s'' ;; Ok (String ch str, r)
            | None =>
                if Ascii.eqb e "u" then
                  match s'' with
                  | String h1 (String h2 (String h3 (String h4 s3))) =>
                      match unicode_escape h1 h2 h3 h4 with
                      | Some ch =>
                          '(str, r) <- parse_chars s3 ;; Ok (String ch str, r)
                      | None => Throw SyntaxError
                      end
                  | _ => Throw SyntaxError
                  end
                else Throw SyntaxError
            end
        end
      else if Nat.ltb (nat_of_ascii c) 32 then Throw SyntaxError
      else '(str, r) <- parse_chars s' ;; Ok (String c str, r)
  end.

Definition is_number_start (c : ascii) : bool :=
  Ascii.eqb c "-" ||
  match digit_of c with Some _ => true | None => false end.

(** The recursive descent.  [fuel] bounds the depth of the calls; twice
    the length of the text is enough ([JSON_parse], [fuel_is_enough]).  An
    object is built by
    defining its members one after the other, so that of two members with
    the same name the later value stays, at the earlier place. *)
Fixpoint parse_value (fuel : nat) (s : string) : result (value * string) :=
  match fuel with
  | O => Throw SyntaxError
  | S fuel' =>
      match skip_ws s with
      | EmptyString => Throw SyntaxError
      | String c r =>
          if is_number_start c then
            '(n, r') <- parse_number (String c r) ;; Ok (VNum n, r')
          else if Ascii.eqb c dquote then
            '(str, r') <- parse_chars r ;; Ok (VStr str, r')
          else if Ascii.eqb c "n" then
            match strip_prefix "ull" r with
            | Some r' => Ok (VNull, r')
            | None => Throw SyntaxError
            end
          else if Ascii.eqb c "t" then
            match strip_prefix "rue" r with
            | Some r' => Ok (VBool true, r')
            | None => Throw SyntaxError
            end
          else if Ascii.eqb c "f" then
            match strip_prefix "alse" r with
            | Some r' => Ok (VBool false, r')
            | None => Throw SyntaxError
            end
          else if Ascii.eqb c "[" then
            match strip_prefix "]" (skip_ws r) with
            | Some r' => Ok (VArr [], r')
            | None => '(l, r') <- parse_elements fuel' r ;; Ok (VArr l, r')
            end
          else if Ascii.eqb c "{" then
            match strip_prefix "}" (skip_ws r) with
            | Some r' => Ok (VObj [], r')
            | None => '(fs, r') <- parse_members fuel' [] r ;; Ok (VObj fs, r')
            end
          else Throw SyntaxError
      end
  end

with parse_elements (fuel : nat) (s : string) : result (list value * string) :=
  match fuel with
  | O => Throw SyntaxError
  | S fuel' =>
      '(v, r) <- parse_value fuel' s ;;
      match skip_ws r with
      | String c r' =>
          if Ascii.eqb c "," then
            '(l, r'') <- parse_elements fuel' r' ;; Ok (v :: l, r'')
          else if Ascii.eqb c "]" then Ok ([v], r')
          else Throw SyntaxError
      | EmptyString => Throw SyntaxError
      end
  end

with parse_members (fuel : nat) (acc : list (string * value)) (s : string)
  : result (list (string * value) * string) :=
  match fuel with
  | O => Throw SyntaxError
  | S fuel' =>
      match strip_prefix (String dquote EmptyString) (skip_ws s) with
      | None => Throw SyntaxError
      | Some r =>
          '(k, r1) <- parse_chars r ;;
          match strip_prefix ":" (skip_ws r1) with
          | None => Throw SyntaxError
          | Some r2 =>
              '(v, r3) <- parse_value fuel' r2 ;;
              match skip_ws r3 with
              | String c r4 =>
                  if Ascii.eqb c "," then
                    parse_members fuel' (set_prop k v acc) r4
                  else if Ascii.eqb c "}" then Ok (set_prop k v acc, r4)
                  else Throw SyntaxError
              | EmptyString => Throw SyntaxError
              end
          end
      end
  end.

(** [JSON.parse(text)]: one value, with nothing but white space after it.
    A text outside the grammar throws [SyntaxError]; so does, in this
    model, a number that is not an integer and an escape [\uXXXX] of a code
    unit above 255. *)
Definition JSON_parse (text : string) : result value :=
  '(v, r) <- parse_value (S (2 * String.length text)) text ;;
  match skip_ws r with
  | EmptyString => Ok v
  | String _ _ => Throw SyntaxError
  end.

(** ** Export and Import *)

(** The text that [handleExport] hands to the download:
    [JSON.stringify({ nodes, edges }, null, 2)]. *)
Definition handleExport (st : state) : string :=
  JSON_stringify (VObj [("nodes", nodes st); ("edges", edges st)]).

(** The [onload] callback of [handleFileSelect], on the text of the file:
    [JSON.parse], the test [json.nodes && json.edges], the two setters, and
    the [catch] that sets the message.  A truthy property is defined, so
    the last branch of the inner [match] is never taken. *)
Definition onload (text : string) (st : state) : state :=
  try_catch
    (json <- JSON_parse text ;;
     n <- prop json "nodes" ;;
     if truthy n then
       e <- prop json "edges" ;;
       if truthy e then
         match n, e with
         | Some n', Some e' => Ok (setEdges e' (setNodes n' st))
         | _, _ => Ok st
         end
       else Ok st
     else Ok st)
    (setError "Invalid JSON file" st).

(** [handleFileSelect]: nothing happens without a file; with one, its text
    is read and handed to [onload]. *)
Definition handleFileSelect (file : option string) (st : state) : state :=
  match file with
  | None => st
  | Some text => onload text st
  end.

(** No object lists a key twice: the values that an engine can hold. *)
Fixpoint distinct (ks : list string) : bool :=
  match ks with
  | [] => true
  | k :: rest => negb (existsb (String.eqb k) rest) && distinct rest
  end.

Fixpoint well_formed (v : value) : bool :=
  match v with
  | VArr l => forallb well_formed l
  | VObj fs =>
      distinct (map fst fs) && forallb (fun kv => well_formed (snd kv)) fs
  | _ => true
  end.

(** The fuel that [parse_value] needs to read a value back. *)
Fixpoint size (v : value) : nat :=
  match v with
  | VArr l => S (list_sum (map (fun x => S (size x)) l))
  | VObj fs => S (list_sum (map (fun kv => S (size (snd kv))) fs))
  | _ => 1
  end.

(** The document has the field [k]. *)
Definition has_field (json : value) (k : string) : bool :=
  match json with
  | VObj fs => match assoc k fs with Some _ => true | None => false end
  | _ => false
  end.

(** ** Reading a printed value back: the statement *)

(** What may follow a number: no digit, no fraction and no exponent. *)
Definition ends_number (r : string) : bool :=
  match r with
  | EmptyString => true
  | String c _ =>
      match digit_of c with
      | Some _ => false
      | None => negb (starts_fraction r)
      end
  end.

(** The first character of a value. *)
Definition value_start (c : ascii) : bool :=
  is_number_start c || Ascii.eqb c dquote || Ascii.eqb c "n" ||
  Ascii.eqb c "t" || Ascii.eqb c "f" || Ascii.eqb c "[" || Ascii.eqb c "{".

(** [v] is read back from its text, at any indentation and before any
    text that does not continue a number. *)
Definition reads_back (v : value) : Prop :=
  forall fuel ind r,
    (size v <= fuel)%nat ->
    ends_number r = true ->
    parse_value fuel (print ind v ++ r) = Ok (v, r).

(** ** Graphs: the shape and the invariants of the data model *)

Definition is_record (v : value) : bool :=
  match v with
  | VObj _ => true
  | _ => false
  end.

(** [n.id === i] for a node of the store. *)
Definition has_id (i : string) (n : value) : bool :=
  match n with
  | VObj fs => strict_eq_str (assoc "id" fs) i
  | _ => false
  end.

(** [e.source === i || e.target === i] for an edge of the store. *)
Definition edge_mentions (i : string) (e : value) : bool :=
  match e with
  | VObj fs =>
      strict_eq_str (assoc "source" fs) i || strict_eq_str (assoc "target" fs) i
  | _ => false
  end.

(** Both ends of the edge are ids of nodes of [ns]. *)
Definition edge_ok (ns : list value) (e : value) : bool :=
  match e with
  | VObj fs =>
      match assoc "source" fs, assoc "target" fs with
      | Some (VStr s), Some (VStr t) =>
          existsb (has_id s) ns && existsb (has_id t) ns
      | _, _ => false
      end
  | _ => false
  end.

(** Referential integrity: no edge references a node that is not there. *)
Definition no_dangling (ns es : list value) : bool :=
  forallb (edge_ok ns) es.

(** The store holds a graph: an array of node records [ns] and an array of
    edge records [es]. *)
Definition is_graph (st : state) (ns es : list value) : Prop :=
  nodes st = VArr ns /\ edges st = VArr es /\
  forallb is_record ns = true /\ forallb is_record es = true.

(** [Array.prototype.map] on a callback that does not throw. *)
Fixpoint map_idx {A B} (g : A -> nat -> B) (i : nat) (l : list A) : list B :=
  match l with
  | [] => []
  | x :: xs => g x i :: map_idx g (S i) xs
  end.

(** The callbacks of the two [map]s on a callback-free reading: what
    [update_node] and [arrange_node] return when they do not throw. *)
Definition updated (c : EditBuffer) (n : value) (_ : nat) : value :=
  if has_id (id c) n
  then VObj (set_prop "data" (buffer_data c) (spread n))
  else n.

Definition arranged (node : value) (idx : nat) : value :=
  VObj (set_prop "position" (arranged_position idx) (spread node)).

(** ** The default position of a new node *)

(** The position the specification gives to a node added to a store of
    [count] nodes: [x = 150, y = 100 + 70 * count]. *)
Definition spec_position (count : nat) : value :=
  VObj [("x", VNum 150); ("y", VNum (100 + 70 * Z.of_nat count))].

(** The position the program gives it. *)
Definition new_position (count : nat) : value :=
  VObj [("x", VNum 150); ("y", VNum (100 + 70 * Z.max 1 (Z.of_nat count)))].

(** ** Sample data *)

(** A graph to run the operations on: the seed node, a second node and an
    edge between them, as React Flow's [addEdge] stores it. *)
Definition two_nodes : list value :=
  [VObj [("id", VStr "1");
         ("type", VStr "default");
         ("position", VObj [("x", VNum 100); ("y", VNum 100)]);
         ("data", VObj [("label", VStr "Start")])];
   VObj [("id", VStr "b7");
         ("position", VObj [("x", VNum 150); ("y", VNum 170)]);
         ("data", VObj [("label", VStr "B"); ("description", VStr "")])]].

Definition one_edge : list value :=
  [VObj [("source", VStr "1");
         ("sourceHandle", VNull);
         ("target", VStr "b7");
         ("targetHandle", VNull);
         ("animated", VBool true);
         ("id", VStr "reactflow__edge-1-b7")]].

Definition sample_state : state :=
  setEdges (VArr one_edge) (setNodes (VArr two_nodes) initial_state).

(** An edge to a node that is not there, and a file that holds it beside
    the seed node. *)
Definition ghost_edge : list value :=
  [VObj [("source", VStr "1");
         ("sourceHandle", VNull);
         ("target", VStr "zz");
         ("targetHandle", VNull);
         ("animated", VBool true);
         ("id", VStr "reactflow__edge-1-zz")]].

Definition ghost_document : string :=
  JSON_stringify
    (VObj [("nodes", nodes initial_state); ("edges", VArr ghost_edge)]).

(** A document whose [nodes] and [edges] are no arrays, and documents
    with a falsy [nodes] or [edges]. *)
Definition untyped_document : string :=
  JSON_stringify (VObj [("nodes", VNum 5); ("edges", VStr "x")]).

Definition falsy_nodes_document : string :=
  JSON_stringify (VObj [("nodes", VNull); ("edges", VArr [])]).

Definition falsy_edges_document : string :=
  JSON_stringify (VObj [("nodes", VArr []); ("edges", VNum 0)]).

(** ** The rest of the modal: form fields, Cancel, and what is shown *)

(** Cancel, the close button and a click outside the modal:
    [() => setShowModal(false)]. *)
Definition onHide (st : state) : state := setShowModal false st.

(** The [onChange] of the label field:
    [setCurrentNode({ ...currentNode, label: e.target.value })]. *)
Definition onChangeLabel (v : string) (st : state) : state :=
  setCurrentNode
    {| id := id (currentNode st); label := v;
       description := description (currentNode st) |} st.

(** The [onChange] of the description field. *)
Definition onChangeDescription (v : string) (st : state) : state :=
  setCurrentNode
    {| id := id (currentNode st); label := label (currentNode st);
       description := v |} st.

(** What the user does in the open form before Save or Cancel: a sequence
    of changes of the two fields. *)
Inductive form_event : Type :=
| TypeLabel (v : string)
| TypeDescription (v : string).

Definition type_event (st : state) (e : form_event) : state :=
  match e with
  | TypeLabel v => onChangeLabel v st
  | TypeDescription v => onChangeDescription v st
  end.

Definition typing (evs : list form_event) (st : state) : state :=
  fold_left type_event evs st.

(** The alert of the modal body, [{error && <Alert>{error}</Alert>}]: it
    is on screen when the modal is shown and the message is not empty. *)
Definition alert (st : state) : option string :=
  if showModal st then
    if truthy (Some (VStr (error st))) then Some (error st) else None
  else None.

(** The ids of the nodes of the store that have one (a string). *)
Fixpoint node_ids (ns : list value) : list string :=
  match ns with
  | [] => []
  | VObj fs :: rest =>
      match assoc "id" fs with
      | Some (VStr i) => i :: node_ids rest
      | _ => node_ids rest
      end
  | _ :: rest => node_ids rest
  end.

(** A text made of JSON white space only (the empty text included). *)
Fixpoint all_json_space (s : string) : bool :=
  match s with
  | EmptyString => true
  | String c s' => is_json_space c && all_json_space s'
  end.

(** * Properties *)

#[local] Arguments Z.add : simpl never.
#[local] Arguments Z.mul : simpl never.
#[local] Arguments Z.max : simpl never.
#[local] Arguments Z.of_nat : simpl never.
#[local] Arguments Z.eqb : simpl never.

(** ** Strings *)

Lemma trim_start_all_white_space s :
  all_white_space s = true -> trim_start s = "".
Proof.
  induction s as [|c s IH]; simpl; [reflexivity|].
  intros H. apply andb_prop in H as [Hc Hs].
  rewrite Hc. auto.
Qed.

Lemma trim_all_white_space s : all_white_space s = true -> trim s = "".
Proof.
  intros H. unfold trim. now rewrite trim_start_all_white_space.
Qed.

Lemma trim_end_empty s : trim_end s = "" -> all_white_space s = true.
Proof.
  induction s as [|c s IH]; simpl; [reflexivity|].
  destruct (trim_end s) eqn:E.
  - destruct (is_white_space c); [auto | discriminate].
  - discriminate.
Qed.

Lemma trim_start_empty s : trim_start s = "" -> all_white_space s = true.
Proof.
  induction s as [|c s IH]; simpl; [reflexivity|].
  destruct (is_white_space c); [auto | discriminate].
Qed.

(** [trim] leaves nothing exactly on the labels made of white space. *)
Lemma trim_empty_iff s : trim s = "" <-> all_white_space s = true.
Proof.
  split; [|apply trim_all_white_space].
  unfold trim. intros H. apply trim_end_empty in H.
  induction s as [|c s IH]; simpl in *; [reflexivity|].
  destruct (is_white_space c) eqn:E; simpl; [auto|].
  simpl in H. now rewrite E in H.
Qed.

(** ** Lists under callbacks that do not throw *)

Lemma map_from_ok {A B} (f : A -> nat -> result B) (g : A -> nat -> B) l :
  forall i,
    (forall x j, In x l -> f x j = Ok (g x j)) ->
    map_from f i l = Ok (map_idx g i l).
Proof.
  induction l as [|x xs IH]; intros i H; simpl; [reflexivity|].
  rewrite (H x i (or_introl eq_refl)). simpl.
  rewrite (IH (S i)); [reflexivity|].
  intros y j Hy. apply H. now right.
Qed.

Lemma filter_list_ok {A} (p : A -> result bool) (q : A -> bool) l :
  (forall x, In x l -> p x = Ok (q x)) ->
  filter_list p l = Ok (filter q l).
Proof.
  induction l as [|x xs IH]; intros H; simpl; [reflexivity|].
  rewrite (H x (or_introl eq_refl)). simpl.
  rewrite IH; [reflexivity|].
  intros y Hy. apply H. now right.
Qed.

Lemma map_idx_length {A B} (g : A -> nat -> B) l :
  forall i, List.length (map_idx g i l) = List.length l.
Proof.
  induction l as [|x xs IH]; intros i; simpl; [reflexivity|].
  now rewrite IH.
Qed.

Lemma map_idx_nth_error {A B} (g : A -> nat -> B) l :
  forall i k x,
    nth_error l k = Some x ->
    nth_error (map_idx g i l) k = Some (g x (i + k)%nat).
Proof.
  induction l as [|y ys IH]; intros i k x H.
  - destruct k; discriminate.
  - destruct k as [|k]; simpl in *.
    + injection H as ->. now rewrite Nat.add_0_r.
    + rewrite (IH (S i) k x H). f_equal. f_equal. lia.
Qed.

Lemma forallb_In {A} (p : A -> bool) l x :
  forallb p l = true -> In x l -> p x = true.
Proof.
  intros H Hx. rewrite forallb_forall in H. auto.
Qed.

(** ** Property lists *)

Lemma assoc_set_prop_same k v fs : assoc k (set_prop k v fs) = Some v.
Proof.
  induction fs as [|[k' v'] fs IH]; simpl.
  - now rewrite String.eqb_refl.
  - destruct (String.eqb k k') eqn:E; simpl.
    + now rewrite String.eqb_refl.
    + now rewrite E.
Qed.

Lemma assoc_set_prop_other k k' v fs :
  k' <> k -> assoc k' (set_prop k v fs) = assoc k' fs.
Proof.
  intros Hne. induction fs as [|[k0 v0] fs IH]; simpl.
  - apply String.eqb_neq in Hne. now rewrite Hne.
  - destruct (String.eqb k k0) eqn:E; simpl.
    + apply String.eqb_eq in E. subst k0.
      apply String.eqb_neq in Hne. now rewrite Hne.
    + now rewrite IH.
Qed.

(** Writing the same property twice is writing it once. *)
Lemma set_prop_idempotent k v fs :
  set_prop k v (set_prop k v fs) = set_prop k v fs.
Proof.
  induction fs as [|[k' v'] fs IH]; simpl.
  - now rewrite String.eqb_refl.
  - destruct (String.eqb k k') eqn:E; simpl.
    + now rewrite String.eqb_refl.
    + now rewrite E, IH.
Qed.

(** The keys keep their order; a new key goes last. *)
Lemma set_prop_keys k v fs :
  map fst (set_prop k v fs) =
  if existsb (String.eqb k) (map fst fs) then map fst fs
  else (map fst fs ++ [k])%list.
Proof.
  induction fs as [|[k' v'] fs IH]; simpl; [reflexivity|].
  destruct (String.eqb k k') eqn:E; simpl.
  - apply String.eqb_eq in E. now subst.
  - rewrite IH. now destruct (existsb _ _).
Qed.

(** ** Handlers on a graph *)

Lemma prop_record n k :
  is_record n = true -> exists fs, n = VObj fs /\ prop n k = Ok (assoc k fs).
Proof.
  destruct n; try discriminate. intros _. eexists. split; reflexivity.
Qed.

Lemma update_node_record c n j :
  is_record n = true -> update_node c n j = Ok (updated c n j).
Proof.
  destruct n; try discriminate. intros _.
  unfold update_node, updated. simpl.
  now destruct (strict_eq_str _ _).
Qed.

Lemma keep_node_record c n :
  is_record n = true -> keep_node c n = Ok (negb (has_id (id c) n)).
Proof.
  destruct n; try discriminate. reflexivity.
Qed.

Lemma keep_edge_record c e :
  is_record e = true -> keep_edge c e = Ok (negb (edge_mentions (id c) e)).
Proof.
  destruct e; try discriminate. intros _.
  unfold keep_edge, edge_mentions. simpl.
  now destruct (strict_eq_str (assoc "source" fs) (id c)).
Qed.

Lemma map_idx_unchanged c ns :
  existsb (has_id (id c)) ns = false ->
  forall i, map_idx (updated c) i ns = ns.
Proof.
  induction ns as [|n ns IH]; intros H i; simpl; [reflexivity|].
  simpl in H. apply orb_false_elim in H as [Hn Hns].
  unfold updated at 1. rewrite Hn. now rewrite IH.
Qed.

Lemma filter_unchanged {A} (q : A -> bool) l :
  forallb q l = true -> filter q l = l.
Proof.
  induction l as [|x xs IH]; simpl; [reflexivity|].
  intros H. apply andb_prop in H as [Hx Hxs].
  now rewrite Hx, IH.
Qed.

Lemma existsb_filter_negb {A} (q : A -> bool) l :
  existsb q (filter (fun x => negb (q x)) l) = false.
Proof.
  induction l as [|x xs IH]; simpl; [reflexivity|].
  destruct (q x) eqn:E; simpl; [assumption|].
  now rewrite E.
Qed.

Lemma forallb_filter {A} (p q : A -> bool) l :
  forallb p l = true -> forallb p (filter q l) = true.
Proof.
  induction l as [|x xs IH]; simpl; [reflexivity|].
  intros H. apply andb_prop in H as [Hx Hxs].
  destruct (q x); simpl; [rewrite Hx|]; auto.
Qed.

(** A node that survives the deletion of [i] is still found by its id. *)
Lemma existsb_has_id_filter i s ns :
  s <> i ->
  existsb (has_id s) (filter (fun n => negb (has_id i n)) ns) =
  existsb (has_id s) ns.
Proof.
  intros Hne. induction ns as [|n ns IH]; simpl; [reflexivity|].
  destruct (has_id i n) eqn:Ei; simpl.
  - rewrite IH. destruct (has_id s n) eqn:Es; [|reflexivity].
    exfalso. destruct n; try discriminate. simpl in Ei, Es.
    destruct (assoc "id" fs) as [[]|]; try discriminate. simpl in Ei, Es.
    apply String.eqb_eq in Ei, Es. congruence.
  - now rewrite IH.
Qed.

Lemma edge_ok_after_delete i ns e :
  edge_ok ns e = true ->
  edge_mentions i e = false ->
  edge_ok (filter (fun n => negb (has_id i n)) ns) e = true.
Proof.
  destruct e; try discriminate. simpl.
  destruct (assoc "source" fs) as [[| | |s| |]|]; try discriminate.
  destruct (assoc "target" fs) as [[| | |t| |]|]; try discriminate.
  simpl. intros Hok Hm. apply orb_false_elim in Hm as [Hs Ht].
  apply String.eqb_neq in Hs, Ht.
  now rewrite !existsb_has_id_filter.
Qed.

Lemma no_dangling_after_delete i ns es :
  no_dangling ns es = true ->
  no_dangling (filter (fun n => negb (has_id i n)) ns)
              (filter (fun e => negb (edge_mentions i e)) es) = true.
Proof.
  unfold no_dangling. induction es as [|e es IH]; simpl; [reflexivity|].
  intros H. apply andb_prop in H as [He Hes].
  destruct (edge_mentions i e) eqn:Em; simpl; [auto|].
  rewrite edge_ok_after_delete; auto.
Qed.

(** An edge of a graph without dangling edges mentions no absent id. *)
Lemma no_dangling_absent i ns es :
  no_dangling ns es = true ->
  existsb (has_id i) ns = false ->
  forallb (fun e => negb (edge_mentions i e)) es = true.
Proof.
  unfold no_dangling. intros H Habs.
  induction es as [|e es IH]; simpl; [reflexivity|].
  simpl in H. apply andb_prop in H as [He Hes].
  rewrite IH by assumption. rewrite andb_true_r.
  destruct e; try discriminate. simpl in *.
  destruct (assoc "source" fs) as [[| | |s| |]|]; try discriminate.
  destruct (assoc "target" fs) as [[| | |t| |]|]; try discriminate.
  simpl. apply andb_prop in He as [Hs Ht].
  destruct (String.eqb s i) eqn:Es.
  { apply String.eqb_eq in Es. subst. congruence. }
  destruct (String.eqb t i) eqn:Et.
  { apply String.eqb_eq in Et. subst. congruence. }
  reflexivity.
Qed.

(** What [DeleteNode] computes on a graph. *)
Lemma DeleteNode_graph i st ns es :
  is_graph st ns es ->
  DeleteNode i st =
  Ok (setShowModal false
        (setEdges (VArr (filter (fun e => negb (edge_mentions i e)) es))
           (setNodes (VArr (filter (fun n => negb (has_id i n)) ns))
              (editing i "" "" st)))).
Proof.
  intros (Hn & He & Rn & Re).
  unfold DeleteNode, handleDeleteNode. simpl.
  rewrite Hn, He. unfold array_filter.
  rewrite (filter_list_ok _ (fun n => negb (has_id i n))).
  2:{ intros x Hx.
      apply (keep_node_record {| id := i; label := ""; description := "" |}).
      exact (forallb_In _ _ _ Rn Hx). }
  simpl.
  rewrite (filter_list_ok _ (fun e => negb (edge_mentions i e))).
  2:{ intros x Hx.
      apply (keep_edge_record {| id := i; label := ""; description := "" |}).
      exact (forallb_In _ _ _ Re Hx). }
  reflexivity.
Qed.

Lemma DeleteNode_is_graph i st ns es :
  is_graph st ns es ->
  exists st',
    DeleteNode i st = Ok st' /\
    is_graph st' (filter (fun n => negb (has_id i n)) ns)
                 (filter (fun e => negb (edge_mentions i e)) es).
Proof.
  intros G. rewrite (DeleteNode_graph i st ns es G).
  eexists. split; [reflexivity|].
  destruct G as (Hn & He & Rn & Re).
  repeat split; simpl; auto using forallb_filter.
Qed.

(** Referential integrity is an invariant of sequences of deletions. *)
Lemma DeleteNodes_invariant ids :
  forall st ns es,
    is_graph st ns es ->
    no_dangling ns es = true ->
    exists st' ns' es',
      DeleteNodes ids st = Ok st' /\
      is_graph st' ns' es' /\
      no_dangling ns' es' = true.
Proof.
  induction ids as [|i ids IH]; intros st ns es G D; simpl.
  - exists st, ns, es. auto.
  - destruct (DeleteNode_is_graph i st ns es G) as (st1 & E1 & G1).
    rewrite E1. simpl.
    apply (IH st1 _ _ G1). now apply no_dangling_after_delete.
Qed.

Lemma sample_state_is_graph : is_graph sample_state two_nodes one_edge.
Proof. repeat split; reflexivity. Qed.

(** ** DeleteNode *)

(** C2.  On every graph, [DeleteNode i] removes the nodes whose id is [i]
    and every edge whose source or target is [i], and keeps the rest; and
    from a graph whose edges reference existing nodes, no sequence of
    Delete operations leads to an edge that references an absent node. *)
Theorem delete_node_cascades st ns es :
  is_graph st ns es ->
  (forall i, exists st' ns' es',
      DeleteNode i st = Ok st' /\
      is_graph st' ns' es' /\
      ns' = filter (fun n => negb (has_id i n)) ns /\
      es' = filter (fun e => negb (edge_mentions i e)) es /\
      existsb (has_id i) ns' = false /\
      existsb (edge_mentions i) es' = false) /\
  (no_dangling ns es = true ->
   forall ids, exists st' ns' es',
      DeleteNodes ids st = Ok st' /\
      is_graph st' ns' es' /\
      no_dangling ns' es' = true).
Proof.
  intros G. split.
  - intros i. destruct (DeleteNode_is_graph i st ns es G) as (st' & E & G').
    exists st', (filter (fun n => negb (has_id i n)) ns),
      (filter (fun e => negb (edge_mentions i e)) es).
    repeat split; try assumption; try apply G'.
    + apply (existsb_filter_negb (has_id i)).
    + apply (existsb_filter_negb (edge_mentions i)).
  - intros D ids. now apply (DeleteNodes_invariant ids st ns es).
Qed.

Lemma delete_node_cascades_witness :
  is_graph sample_state two_nodes one_edge /\
  no_dangling two_nodes one_edge = true /\
  (exists st' ns' es',
      DeleteNode "1" sample_state = Ok st' /\
      is_graph st' ns' es' /\
      ns' = filter (fun n => negb (has_id "1" n)) two_nodes /\
      es' = filter (fun e => negb (edge_mentions "1" e)) one_edge /\
      existsb (has_id "1") ns' = false /\
      existsb (edge_mentions "1") es' = false) /\
  (exists st' ns' es',
      DeleteNodes ["1"; "b7"] sample_state = Ok st' /\
      is_graph st' ns' es' /\
      no_dangling ns' es' = true).
Proof.
  pose proof (delete_node_cascades sample_state two_nodes one_edge
                sample_state_is_graph) as [H1 H2].
  split; [exact sample_state_is_graph|].
  split; [reflexivity|].
  split; [exact (H1 "1") | exact (H2 eq_refl ["1"; "b7"])].
Defined.

(** Without the integrity of the edges, deleting an absent id still keeps
    every node, and removes exactly the edges that mention the id. *)
Lemma DeleteNode_absent i st ns es :
  is_graph st ns es ->
  existsb (has_id i) ns = false ->
  exists st',
    DeleteNode i st = Ok st' /\
    nodes st' = nodes st /\
    edges st' = VArr (filter (fun e => negb (edge_mentions i e)) es).
Proof.
  intros G Habs. rewrite (DeleteNode_graph i st ns es G).
  eexists. split; [reflexivity|]. simpl. split; [|reflexivity].
  destruct G as (Hn & _). rewrite Hn. f_equal.
  apply filter_unchanged.
  clear Hn. induction ns as [|n ns IH]; simpl in *; [reflexivity|].
  apply orb_false_elim in Habs as [-> Hns]. simpl. auto.
Qed.

(** ** Save *)

Lemma blank_label_test l :
  negb (truthy (Some (VStr (trim l)))) = all_white_space l.
Proof.
  simpl. rewrite negb_involutive.
  destruct (all_white_space l) eqn:E.
  - apply trim_empty_iff in E. now rewrite E.
  - apply String.eqb_neq. intros H. apply trim_empty_iff in H. congruence.
Qed.

Lemma handleSaveNode_blank uuid st :
  all_white_space (label (currentNode st)) = true ->
  handleSaveNode uuid st = Ok (setError "Label is required" st).
Proof.
  intros H. unfold handleSaveNode. now rewrite blank_label_test, H.
Qed.

(** C5.  Whatever the session, Save on a label made of white space only
    changes neither the nodes nor the edges, leaves the modal and its mode
    as they are, and sets the message "Label is required". *)
Theorem save_rejects_blank_label uuid st :
  all_white_space (label (currentNode st)) = true ->
  exists st',
    handleSaveNode uuid st = Ok st' /\
    st' = setError "Label is required" st /\
    nodes st' = nodes st /\
    edges st' = edges st /\
    session st' = session st /\
    showModal st' = showModal st /\
    currentNode st' = currentNode st /\
    error st' = "Label is required".
Proof.
  intros H. exists (setError "Label is required" st).
  rewrite (handleSaveNode_blank uuid st H).
  repeat split.
Qed.

Lemma save_rejects_blank_label_witness :
  all_white_space (label (currentNode (adding "   " "" initial_state))) = true /\
  exists st',
    handleSaveNode "u" (adding "   " "" initial_state) = Ok st' /\
    st' = setError "Label is required" (adding "   " "" initial_state) /\
    nodes st' = nodes (adding "   " "" initial_state) /\
    edges st' = edges (adding "   " "" initial_state) /\
    session st' = session (adding "   " "" initial_state) /\
    showModal st' = showModal (adding "   " "" initial_state) /\
    currentNode st' = currentNode (adding "   " "" initial_state) /\
    error st' = "Label is required".
Proof.
  split; [reflexivity|].
  apply (save_rejects_blank_label "u" (adding "   " "" initial_state)).
  reflexivity.
Defined.

(** The same in the two open states of the session. *)
Lemma save_blank_keeps_session uuid i l d st :
  all_white_space l = true ->
  (exists st', AddNode uuid l d st = Ok st' /\ session st' = AddingNew) /\
  (exists st', UpdateNode uuid i l d st = Ok st' /\ session st' = EditingExisting).
Proof.
  intros H. split.
  - unfold AddNode. rewrite (handleSaveNode_blank uuid (adding l d st) H).
    eexists. split; reflexivity.
  - unfold UpdateNode. rewrite (handleSaveNode_blank uuid (editing i l d st) H).
    eexists. split; reflexivity.
Qed.

(** ** Delete while adding *)

(** C10.  While a new node is being added (the modal is open and
    [isEditMode] is off) the Delete handler returns the state it was given:
    same nodes, same edges, and the session is still adding. *)
Theorem delete_while_adding_is_noop st :
  session st = AddingNew ->
  exists st',
    handleDeleteNode st = Ok st' /\
    st' = st /\
    nodes st' = nodes st /\
    edges st' = edges st /\
    session st' = AddingNew.
Proof.
  intros S. exists st. unfold handleDeleteNode.
  assert (E : isEditMode st = false).
  { unfold session in S.
    destruct (showModal st); [|discriminate].
    now destruct (isEditMode st). }
  rewrite E. repeat split. exact S.
Qed.

Lemma delete_while_adding_is_noop_witness :
  session (handleAddNode sample_state) = AddingNew /\
  exists st',
    handleDeleteNode (handleAddNode sample_state) = Ok st' /\
    st' = handleAddNode sample_state /\
    nodes st' = nodes (handleAddNode sample_state) /\
    edges st' = edges (handleAddNode sample_state) /\
    session st' = AddingNew.
Proof.
  split; [reflexivity|].
  apply (delete_while_adding_is_noop (handleAddNode sample_state)).
  reflexivity.
Defined.

(** ** AddNode *)

Lemma length_or_one_max n : length_or_one (Z.of_nat n) = Z.max 1 (Z.of_nat n).
Proof.
  unfold length_or_one, truthy.
  destruct (Z.eqb_spec (Z.of_nat n) 0) as [E|E]; simpl; lia.
Qed.

(** C3, as the program has it.  On a store of [count] nodes, AddNode with a
    label that is not blank appends exactly one node, with the fresh id,
    the label and the description, at [x = 150] and
    [y = 100 + 70 * max(1, count)]: that is [100 + 70 * count] on a store
    that has a node, and [170] on the empty store.  The nodes already
    there and the edges are unchanged. *)
Theorem add_node_appends uuid l d st ns :
  nodes st = VArr ns ->
  all_white_space l = false ->
  exists st',
    AddNode uuid l d st = Ok st' /\
    nodes st' =
      VArr (ns ++ [VObj [("id", VStr uuid);
                         ("position", new_position (List.length ns));
                         ("data", VObj [("label", VStr l);
                                        ("description", VStr d)])]]) /\
    edges st' = edges st /\
    session st' = Closed /\
    (1 <= List.length ns -> new_position (List.length ns) = spec_position (List.length ns))%nat.
Proof.
  intros Hn Hl. unfold AddNode, handleSaveNode.
  rewrite blank_label_test. simpl. rewrite Hl, Hn. simpl.
  eexists. split; [reflexivity|]. simpl.
  unfold new_node, new_position, buffer_data. simpl.
  rewrite length_or_one_max.
  repeat split.
  intros Hc. unfold spec_position.
  replace (Z.max 1 (Z.of_nat (List.length ns))) with (Z.of_nat (List.length ns))
    by lia.
  reflexivity.
Qed.

Lemma add_node_appends_witness :
  nodes initial_state = VArr [VObj [("id", VStr "1");
                                    ("type", VStr "default");
                                    ("position", VObj [("x", VNum 100); ("y", VNum 100)]);
                                    ("data", VObj [("label", VStr "Start")])]] /\
  all_white_space "B" = false /\
  exists st',
    AddNode "b7" "B" "" initial_state = Ok st' /\
    nodes st' =
      VArr ([VObj [("id", VStr "1");
                   ("type", VStr "default");
                   ("position", VObj [("x", VNum 100); ("y", VNum 100)]);
                   ("data", VObj [("label", VStr "Start")])]]
            ++ [VObj [("id", VStr "b7");
                      ("position", new_position 1);
                      ("data", VObj [("label", VStr "B");
                                     ("description", VStr "")])]]) /\
    edges st' = edges initial_state /\
    session st' = Closed /\
    (1 <= 1 -> new_position 1 = spec_position 1)%nat.
Proof.
  split; [reflexivity|]. split; [reflexivity|].
  apply (add_node_appends "b7" "B" "" initial_state _ eq_refl eq_refl).
Defined.

(** C3 as stated fails on the empty store, which Delete reaches from the
    first render: the node added there is placed at [y = 170], where the
    formula [100 + 70 * count] gives [100]. *)
Lemma add_node_on_empty_store_counterexample :
  exists st0 st1,
    DeleteNode "1" initial_state = Ok st0 /\
    nodes st0 = VArr [] /\
    AddNode "b7" "B" "" st0 = Ok st1 /\
    nodes st1 = VArr [VObj [("id", VStr "b7");
                            ("position", VObj [("x", VNum 150); ("y", VNum 170)]);
                            ("data", VObj [("label", VStr "B");
                                           ("description", VStr "")])]] /\
    spec_position 0 = VObj [("x", VNum 150); ("y", VNum 100)] /\
    nodes st1 <> VArr [VObj [("id", VStr "b7");
                             ("position", spec_position 0);
                             ("data", VObj [("label", VStr "B");
                                            ("description", VStr "")])]].
Proof.
  do 2 eexists.
  split; [reflexivity|]. split; [reflexivity|].
  split; [reflexivity|]. split; [reflexivity|].
  split; [reflexivity|]. discriminate.
Qed.

(** ** UpdateNode *)

Lemma UpdateNode_graph uuid i l d st ns es :
  is_graph st ns es ->
  all_white_space l = false ->
  UpdateNode uuid i l d st =
  Ok (setShowModal false
        (setNodes
           (VArr (map_idx (updated {| id := i; label := l; description := d |}) 0 ns))
           (editing i l d st))).
Proof.
  intros (Hn & He & Rn & Re) Hl.
  unfold UpdateNode, handleSaveNode.
  rewrite blank_label_test. simpl. rewrite Hl, Hn. simpl.
  rewrite (map_from_ok _ (updated {| id := i; label := l; description := d |})).
  - reflexivity.
  - intros x j Hx. apply update_node_record.
    exact (forallb_In _ _ _ Rn Hx).
Qed.

(** C6.  On every graph, UpdateNode with a label that is not blank keeps
    the number and the order of the nodes and the edges; a node with
    another id is unchanged; a node with the given id keeps every property
    but [data] (its [id] and [position] among them), and its [data] holds
    the new label and description. *)
Theorem update_node_frame uuid i l d st ns es :
  is_graph st ns es ->
  all_white_space l = false ->
  exists st' ns',
    UpdateNode uuid i l d st = Ok st' /\
    nodes st' = VArr ns' /\
    edges st' = edges st /\
    List.length ns' = List.length ns /\
    forall k n,
      nth_error ns k = Some n ->
      exists n',
        nth_error ns' k = Some n' /\
        (has_id i n = false -> n' = n) /\
        (has_id i n = true ->
         prop n' "id" = prop n "id" /\
         prop n' "position" = prop n "position" /\
         prop n' "data" =
           Ok (Some (VObj [("label", VStr l); ("description", VStr d)])) /\
         forall key, key <> "data" -> prop n' key = prop n key).
Proof.
  intros G Hl. rewrite (UpdateNode_graph uuid i l d st ns es G Hl).
  do 2 eexists. split; [reflexivity|]. simpl.
  split; [reflexivity|]. split; [reflexivity|].
  split; [apply map_idx_length|].
  intros k n Hk. eexists. split; [apply (map_idx_nth_error _ _ _ _ _ Hk)|].
  unfold updated. simpl. split.
  - intros ->. reflexivity.
  - intros Hid. rewrite Hid.
    destruct n; try discriminate. simpl.
    rewrite assoc_set_prop_same.
    rewrite !assoc_set_prop_other by discriminate.
    repeat split. intros key Hkey. now rewrite assoc_set_prop_other.
Qed.

Lemma update_node_frame_witness :
  is_graph sample_state two_nodes one_edge /\
  all_white_space "Begin" = false /\
  exists st' ns',
    UpdateNode "" "1" "Begin" "first step" sample_state = Ok st' /\
    nodes st' = VArr ns' /\
    edges st' = edges sample_state /\
    List.length ns' = List.length two_nodes /\
    forall k n,
      nth_error two_nodes k = Some n ->
      exists n',
        nth_error ns' k = Some n' /\
        (has_id "1" n = false -> n' = n) /\
        (has_id "1" n = true ->
         prop n' "id" = prop n "id" /\
         prop n' "position" = prop n "position" /\
         prop n' "data" =
           Ok (Some (VObj [("label", VStr "Begin");
                           ("description", VStr "first step")])) /\
         forall key, key <> "data" -> prop n' key = prop n key).
Proof.
  split; [exact sample_state_is_graph|]. split; [reflexivity|].
  apply (update_node_frame "" "1" "Begin" "first step" sample_state
           two_nodes one_edge sample_state_is_graph eq_refl).
Defined.

(** ** UpdateNode and DeleteNode on an absent id *)

(** C8, as the program has it.  On every graph and for every id that no
    node has, UpdateNode and DeleteNode complete; UpdateNode leaves the
    nodes and the edges as they are; DeleteNode leaves the nodes as they
    are and removes exactly the edges whose source or target is the id, so
    that it leaves the edges as they are when no edge mentions the id, as
    in every graph whose edges reference existing nodes. *)
Theorem absent_id_update_delete uuid i l d st ns es :
  is_graph st ns es ->
  existsb (has_id i) ns = false ->
  (exists st',
      UpdateNode uuid i l d st = Ok st' /\
      nodes st' = nodes st /\ edges st' = edges st) /\
  (exists st',
      DeleteNode i st = Ok st' /\
      nodes st' = nodes st /\
      edges st' = VArr (filter (fun e => negb (edge_mentions i e)) es) /\
      (existsb (edge_mentions i) es = false -> edges st' = edges st) /\
      (no_dangling ns es = true -> edges st' = edges st)).
Proof.
  intros G Habs. split.
  - destruct (all_white_space l) eqn:Hl.
    + unfold UpdateNode.
      rewrite (handleSaveNode_blank uuid (editing i l d st) Hl).
      eexists. split; [reflexivity|]. auto.
    + rewrite (UpdateNode_graph uuid i l d st ns es G Hl).
      eexists. split; [reflexivity|]. simpl.
      rewrite (map_idx_unchanged {| id := i; label := l; description := d |})
        by assumption.
      destruct G as (Hn & _). auto.
  - destruct (DeleteNode_absent i st ns es G Habs) as (st' & E & En & Ee).
    exists st'. split; [exact E|]. split; [exact En|]. split; [exact Ee|].
    destruct G as (_ & He & _). split.
    + intros Hm. rewrite Ee, He, filter_unchanged; [reflexivity|].
      clear - Hm. induction es as [|e es IH]; simpl in *; [reflexivity|].
      apply orb_false_elim in Hm as [-> Hm]. simpl. auto.
    + intros D. rewrite Ee, He, filter_unchanged; [reflexivity|].
      now apply (no_dangling_absent i ns es).
Qed.

Lemma absent_id_update_delete_witness :
  is_graph sample_state two_nodes one_edge /\
  existsb (has_id "zz") two_nodes = false /\
  (exists st',
      UpdateNode "" "zz" "Ghost" "" sample_state = Ok st' /\
      nodes st' = nodes sample_state /\ edges st' = edges sample_state) /\
  (exists st',
      DeleteNode "zz" sample_state = Ok st' /\
      nodes st' = nodes sample_state /\
      edges st' = VArr (filter (fun e => negb (edge_mentions "zz" e)) one_edge) /\
      (existsb (edge_mentions "zz") one_edge = false ->
       edges st' = edges sample_state) /\
      (no_dangling two_nodes one_edge = true -> edges st' = edges sample_state)).
Proof.
  split; [exact sample_state_is_graph|]. split; [reflexivity|].
  apply (absent_id_update_delete "" "zz" "Ghost" "" sample_state two_nodes
           one_edge sample_state_is_graph eq_refl).
Defined.

(** C8 as stated fails on a store with an edge to a node that is not there,
    which Import installs as the file has it: no node has the id [zz], and
    DeleteNode of [zz] removes the edge. *)
Lemma delete_absent_id_counterexample :
  exists st ns st',
    onload ghost_document initial_state = st /\
    is_graph st ns ghost_edge /\
    existsb (has_id "zz") ns = false /\
    DeleteNode "zz" st = Ok st' /\
    nodes st' = nodes st /\
    edges st = VArr ghost_edge /\
    edges st' = VArr [] /\
    edges st' <> edges st.
Proof.
  do 3 eexists. split; [reflexivity|].
  split; [repeat split; reflexivity|].
  split; [reflexivity|]. split; [reflexivity|].
  split; [reflexivity|]. split; [reflexivity|].
  split; [reflexivity|]. discriminate.
Qed.

(** ** AutoArrange *)

Lemma map_idx_arranged_idempotent ns :
  forall i, map_idx arranged i (map_idx arranged i ns) = map_idx arranged i ns.
Proof.
  induction ns as [|n ns IH]; intros i; simpl; [reflexivity|].
  rewrite IH. f_equal.
  unfold arranged at 1 2. simpl. now rewrite set_prop_idempotent.
Qed.

Lemma autoArrange_array st ns :
  nodes st = VArr ns ->
  autoArrange st = Ok (setNodes (VArr (map_idx arranged 0 ns)) st).
Proof.
  intros Hn. unfold autoArrange, array_map. rewrite Hn.
  now rewrite (map_from_ok arrange_node arranged).
Qed.

(** C7.  On every store whose nodes are an array, AutoArrange puts an
    object in the place of every node, in the same order, with the
    position [x = 100, y = 100 + k * 80] at index [k].  For a node that is
    an object, every other property is the node's own, unchanged (its id
    among them), and the keys keep their order ([position] goes last when
    the node had none).  The edges and the rest of the state are
    untouched, and AutoArrange of the result is the result. *)
Theorem auto_arrange_layout st ns :
  nodes st = VArr ns ->
  exists st' ns',
    autoArrange st = Ok st' /\
    st' = setNodes (VArr ns') st /\
    edges st' = edges st /\
    List.length ns' = List.length ns /\
    (forall k n,
        nth_error ns k = Some n ->
        exists fs',
          nth_error ns' k = Some (VObj fs') /\
          assoc "position" fs' =
            Some (VObj [("x", VNum 100); ("y", VNum (100 + Z.of_nat k * 80))]) /\
          (forall fs,
              n = VObj fs ->
              assoc "id" fs' = assoc "id" fs /\
              (forall key, key <> "position" -> assoc key fs' = assoc key fs) /\
              map fst fs' =
                if existsb (String.eqb "position") (map fst fs)
                then map fst fs else (map fst fs ++ ["position"])%list) /\
          (n = VNull \/ (exists b, n = VBool b) \/ (exists z, n = VNum z) ->
           fs' = [("position",
                   VObj [("x", VNum 100); ("y", VNum (100 + Z.of_nat k * 80))])])) /\
    autoArrange st' = Ok st'.
Proof.
  intros Hn. rewrite (autoArrange_array st ns Hn).
  do 2 eexists. split; [reflexivity|]. split; [reflexivity|].
  split; [reflexivity|]. split; [apply map_idx_length|]. split.
  - intros k n Hk. eexists.
    split; [apply (map_idx_nth_error arranged _ 0 k n Hk)|].
    rewrite assoc_set_prop_same. split; [reflexivity|]. split.
    + intros fs ->. cbn [spread].
      rewrite assoc_set_prop_other by discriminate.
      split; [reflexivity|]. split.
      * intros key Hkey. now apply assoc_set_prop_other.
      * apply set_prop_keys.
    + intros [->|[(b & ->)|(z & ->)]]; reflexivity.
  - rewrite (autoArrange_array (setNodes (VArr (map_idx arranged 0 ns)) st)
               (map_idx arranged 0 ns) eq_refl).
    now rewrite map_idx_arranged_idempotent.
Qed.

Lemma auto_arrange_layout_witness :
  nodes sample_state = VArr two_nodes /\
  autoArrange sample_state =
    Ok (setNodes
          (VArr [VObj [("id", VStr "1");
                       ("type", VStr "default");
                       ("position", VObj [("x", VNum 100); ("y", VNum 100)]);
                       ("data", VObj [("label", VStr "Start")])];
                 VObj [("id", VStr "b7");
                       ("position", VObj [("x", VNum 100); ("y", VNum 180)]);
                       ("data", VObj [("label", VStr "B");
                                      ("description", VStr "")])]])
          sample_state) /\
  exists st' ns',
    autoArrange sample_state = Ok st' /\
    st' = setNodes (VArr ns') sample_state /\
    edges st' = edges sample_state /\
    List.length ns' = List.length two_nodes /\
    (forall k n,
        nth_error two_nodes k = Some n ->
        exists fs',
          nth_error ns' k = Some (VObj fs') /\
          assoc "position" fs' =
            Some (VObj [("x", VNum 100); ("y", VNum (100 + Z.of_nat k * 80))]) /\
          (forall fs,
              n = VObj fs ->
              assoc "id" fs' = assoc "id" fs /\
              (forall key, key <> "position" -> assoc key fs' = assoc key fs) /\
              map fst fs' =
                if existsb (String.eqb "position") (map fst fs)
                then map fst fs else (map fst fs ++ ["position"])%list) /\
          (n = VNull \/ (exists b, n = VBool b) \/ (exists z, n = VNum z) ->
           fs' = [("position",
                   VObj [("x", VNum 100); ("y", VNum (100 + Z.of_nat k * 80))])])) /\
    autoArrange st' = Ok st'.
Proof.
  split; [reflexivity|]. split; [reflexivity|].
  apply (auto_arrange_layout sample_state two_nodes eq_refl).
Defined.

(** The sample graph after AutoArrange. *)
Lemma auto_arrange_sample :
  autoArrange sample_state =
  Ok (setNodes
        (VArr [VObj [("id", VStr "1");
                     ("type", VStr "default");
                     ("position", VObj [("x", VNum 100); ("y", VNum 100)]);
                     ("data", VObj [("label", VStr "Start")])];
               VObj [("id", VStr "b7");
                     ("position", VObj [("x", VNum 100); ("y", VNum 180)]);
                     ("data", VObj [("label", VStr "B");
                                    ("description", VStr "")])]])
        sample_state).
Proof. reflexivity. Qed.

(** ** JSON text: what is printed is read back *)

#[local] Open Scope nat_scope.

Lemma append_assoc (a b c : string) : (a ++ b) ++ c = a ++ (b ++ c).
Proof.
  induction a as [|x a IH]; simpl; [reflexivity|]. now rewrite IH.
Qed.

Lemma append_empty_r (a : string) : a ++ "" = a.
Proof.
  induction a as [|x a IH]; simpl; [reflexivity|]. now rewrite IH.
Qed.

Lemma length_append (a b : string) :
  String.length (a ++ b) = (String.length a + String.length b)%nat.
Proof.
  induction a as [|x a IH]; simpl; [reflexivity|]. now rewrite IH.
Qed.

Lemma skip_ws_spaces n s : skip_ws (spaces n ++ s) = skip_ws s.
Proof.
  induction n as [|n IH]; simpl; [reflexivity|]. exact IH.
Qed.

Lemma skip_ws_line n s : skip_ws (String newline (spaces n ++ s)) = skip_ws s.
Proof.
  simpl. apply skip_ws_spaces.
Qed.

(** The parsers look at their input through [skip_ws]. *)
Lemma parse_value_skip fuel s t :
  skip_ws s = skip_ws t -> parse_value fuel s = parse_value fuel t.
Proof.
  intros H. destruct fuel; simpl; [reflexivity|]. now rewrite H.
Qed.

Lemma parse_members_skip fuel acc s t :
  skip_ws s = skip_ws t -> parse_members fuel acc s = parse_members fuel acc t.
Proof.
  intros H. destruct fuel; simpl; [reflexivity|]. now rewrite H.
Qed.

(** *** Strings *)

Lemma parse_chars_quote_body s r :
  parse_chars (quote_body s ++ String dquote r) = Ok (s, r).
Proof.
  induction s as [|c s IH]; [reflexivity|].
  change (quote_body (String c s)) with (escape c ++ quote_body s).
  rewrite append_assoc.
  destruct c as [[] [] [] [] [] [] [] []];
    match goal with
    | |- context [escape ?c] =>
        let e := eval vm_compute in (escape c) in change (escape c) with e
    end;
    simpl; rewrite IH; reflexivity.
Qed.

Lemma quote_append k t : quote k ++ t = String dquote (quote_body k ++ String dquote t).
Proof.
  unfold quote. simpl. now rewrite append_assoc.
Qed.

(** *** Numbers *)

Lemma scan_digits_print u r :
  ends_number r = true ->
  scan_digits (NilEmpty.string_of_uint u ++ r) = (u, r).
Proof.
  intros Hr. induction u; simpl; try (rewrite IHu; reflexivity).
  destruct r as [|c r]; [reflexivity|].
  simpl in *. now destruct (digit_of c).
Qed.

Lemma normal_no_leading_zero u : unorm u = u -> leading_zero u = false.
Proof.
  destruct u as [|u| | | | | | | | |]; try reflexivity.
  destruct u; try reflexivity; intros H; exfalso;
    rewrite DecimalFacts.unorm_D0 in H;
    unfold unorm in H;
    match type of H with
    | match nzhead ?d with _ => _ end = _ =>
        pose proof (DecimalFacts.nzhead_nonzero d) as Hnz;
        destruct (nzhead d) eqn:E; try discriminate; eapply Hnz; eauto
    end.
Qed.

Lemma to_uint_normal p : unorm (Pos.to_uint p) = Pos.to_uint p.
Proof.
  rewrite <- (DecimalPos.Unsigned.to_of (Pos.to_uint p)).
  now rewrite DecimalPos.Unsigned.of_to.
Qed.

Lemma parse_number_digits u r :
  u <> Nil -> unorm u = u -> ends_number r = true ->
  parse_number (NilEmpty.string_of_uint u ++ r) = Ok (Z.of_int (Pos u), r) /\
  parse_number (String "-" (NilEmpty.string_of_uint u ++ r)) =
    Ok (Z.of_int (Neg u), r).
Proof.
  intros Hnil Hnorm Hr.
  pose proof (normal_no_leading_zero u Hnorm) as Hz.
  assert (Hf : starts_fraction r = false).
  { destruct r as [|c r]; [reflexivity|]. simpl in Hr.
    destruct (digit_of c); [discriminate|]. now apply negb_true_iff in Hr. }
  split.
  - unfold parse_number.
    assert (Hd : forall s, NilEmpty.string_of_uint u ++ r = s ->
               (match s with
                | String c s' => if Ascii.eqb c "-" then (true, s') else (false, s)
                | EmptyString => (false, s)
                end) = (false, s)).
    { intros s <-. destruct u; try reflexivity. congruence. }
    rewrite (Hd _ eq_refl). rewrite (scan_digits_print u r Hr).
    rewrite Hz, Hf. destruct u; try reflexivity. congruence.
  - unfold parse_number. simpl. rewrite (scan_digits_print u r Hr).
    rewrite Hz, Hf. destruct u; try reflexivity. congruence.
Qed.

Lemma parse_value_number fuel n r :
  ends_number r = true ->
  parse_value (S fuel) (print_number n ++ r) = Ok (VNum n, r).
Proof.
  intros Hr. unfold print_number.
  rewrite <- (DecimalZ.of_to n) at 2.
  destruct n as [|p|p].
  - assert (Hnil : D0 Nil <> Nil) by discriminate.
    destruct (parse_number_digits (D0 Nil) r Hnil eq_refl Hr) as [H _].
    simpl in H |- *. rewrite H. reflexivity.
  - simpl Z.to_int. simpl NilEmpty.string_of_int.
    pose proof (DecimalPos.Unsigned.to_uint_nonnil p) as Hnil.
    pose proof (to_uint_normal p) as Hnorm.
    destruct (parse_number_digits _ r Hnil Hnorm Hr) as [H _].
    revert H. destruct (Pos.to_uint p); try congruence;
      intros H; simpl in H |- *; rewrite H; reflexivity.
  - simpl Z.to_int.
    pose proof (DecimalPos.Unsigned.to_uint_nonnil p) as Hnil.
    pose proof (to_uint_normal p) as Hnorm.
    destruct (parse_number_digits _ r Hnil Hnorm Hr) as [_ H].
    revert H. generalize (Pos.to_uint p). intros u H.
    change (parse_value (S fuel) (String "-" (NilEmpty.string_of_uint u ++ r)) =
            Ok (VNum (Z.of_int (Neg u)), r)).
    simpl. simpl in H. rewrite H. reflexivity.
Qed.

(** *** Values *)

Lemma value_start_not_space c :
  value_start c = true ->
  is_json_space c = false /\ Ascii.eqb c "]" = false /\ Ascii.eqb c "}" = false.
Proof.
  destruct c as [[] [] [] [] [] [] [] []]; vm_compute; intros H;
    try discriminate H; repeat split.
Qed.

Lemma print_head v ind r :
  exists c s, print ind v ++ r = String c s /\ value_start c = true.
Proof.
  destruct v as [|[]|n|s|[|x l]|[|kv fs]];
    try (do 2 eexists; split; [reflexivity|reflexivity]).
  unfold print, print_number.
  destruct n as [|p|p]; try (do 2 eexists; split; reflexivity).
  simpl Z.to_int. simpl NilEmpty.string_of_int.
  pose proof (DecimalPos.Unsigned.to_uint_nonnil p) as Hnil.
  destruct (Pos.to_uint p); try congruence;
    do 2 eexists; split; reflexivity.
Qed.

Lemma skip_ws_print v ind r : skip_ws (print ind v ++ r) = print ind v ++ r.
Proof.
  destruct (print_head v ind r) as (c & s & -> & H).
  apply value_start_not_space in H as (H & _). simpl. now rewrite H.
Qed.

Lemma strip_bracket_print v ind r :
  strip_prefix "]" (print ind v ++ r) = None /\
  strip_prefix "}" (print ind v ++ r) = None.
Proof.
  destruct (print_head v ind r) as (c & s & -> & H).
  apply value_start_not_space in H as (_ & H1 & H2).
  cbn [strip_prefix].
  rewrite (Ascii.eqb_sym "]" c), H1. rewrite (Ascii.eqb_sym "}" c), H2. auto.
Qed.

(** One step of each parser. *)
Lemma parse_elements_step fuel s :
  parse_elements (S fuel) s =
  ('(v, r) <- parse_value fuel s ;;
   match skip_ws r with
   | String c r' =>
       if Ascii.eqb c "," then
         '(l, r'') <- parse_elements fuel r' ;; Ok (v :: l, r'')
       else if Ascii.eqb c "]" then Ok ([v], r')
       else Throw SyntaxError
   | EmptyString => Throw SyntaxError
   end).
Proof. reflexivity. Qed.

Lemma parse_members_step fuel acc s :
  parse_members (S fuel) acc s =
  match strip_prefix (String dquote EmptyString) (skip_ws s) with
  | None => Throw SyntaxError
  | Some r =>
      '(k, r1) <- parse_chars r ;;
      match strip_prefix ":" (skip_ws r1) with
      | None => Throw SyntaxError
      | Some r2 =>
          '(v, r3) <- parse_value fuel r2 ;;
          match skip_ws r3 with
          | String c r4 =>
              if Ascii.eqb c "," then parse_members fuel (set_prop k v acc) r4
              else if Ascii.eqb c "}" then Ok (set_prop k v acc, r4)
              else Throw SyntaxError
          | EmptyString => Throw SyntaxError
          end
      end
  end.
Proof. reflexivity. Qed.

Lemma concat_cons_cons sep a b (l : list string) :
  String.concat sep (a :: b :: l) = a ++ sep ++ String.concat sep (b :: l).
Proof. reflexivity. Qed.

Lemma separator_append n t :
  separator n ++ t = String "," (String newline (spaces n ++ t)).
Proof. reflexivity. Qed.

Lemma print_array_cons ind x l :
  print ind (VArr (x :: l)) =
  "[" ++ String newline (spaces (2 + ind)) ++
  String.concat (separator (2 + ind)) (map (print (2 + ind)) (x :: l)) ++
  String newline (spaces ind) ++ "]".
Proof. reflexivity. Qed.

Lemma print_object_cons ind kv fs :
  print ind (VObj (kv :: fs)) =
  "{" ++ String newline (spaces (2 + ind)) ++
  String.concat (separator (2 + ind)) (map (member (2 + ind)) (kv :: fs)) ++
  String newline (spaces ind) ++ "}".
Proof. reflexivity. Qed.

Lemma parse_value_step fuel s :
  parse_value (S fuel) s =
  match skip_ws s with
  | EmptyString => Throw SyntaxError
  | String c r =>
      if is_number_start c then
        '(n, r') <- parse_number (String c r) ;; Ok (VNum n, r')
      else if Ascii.eqb c dquote then
        '(str, r') <- parse_chars r ;; Ok (VStr str, r')
      else if Ascii.eqb c "n" then
        match strip_prefix "ull" r with
        | Some r' => Ok (VNull, r')
        | None => Throw SyntaxError
        end
      else if Ascii.eqb c "t" then
        match strip_prefix "rue" r with
        | Some r' => Ok (VBool true, r')
        | None => Throw SyntaxError
        end
      else if Ascii.eqb c "f" then
        match strip_prefix "alse" r with
        | Some r' => Ok (VBool false, r')
        | None => Throw SyntaxError
        end
      else if Ascii.eqb c "[" then
        match strip_prefix "]" (skip_ws r) with
        | Some r' => Ok (VArr [], r')
        | None => '(l, r') <- parse_elements fuel r ;; Ok (VArr l, r')
        end
      else if Ascii.eqb c "{" then
        match strip_prefix "}" (skip_ws r) with
        | Some r' => Ok (VObj [], r')
        | None => '(fs, r') <- parse_members fuel [] r ;; Ok (VObj fs, r')
        end
      else Throw SyntaxError
  end.
Proof. reflexivity. Qed.

#[local] Opaque String.concat print parse_value parse_elements parse_members
  parse_chars.

Lemma elements_read_back l :
  Forall reads_back l ->
  forall x fuel n ind r,
    reads_back x ->
    (list_sum (map (fun y => S (size y)) (x :: l)) <= fuel)%nat ->
    parse_elements fuel
      (String newline
         (spaces n ++ String.concat (separator n) (map (print n) (x :: l)) ++
          String newline (spaces ind ++ String "]" r))) =
    Ok (x :: l, r).
Proof.
  induction 1 as [|y l Hy Hl IH]; intros x fuel n ind r Hx Hfuel.
  - destruct fuel as [|fuel]; [simpl in Hfuel; lia|].
    rewrite parse_elements_step.
    rewrite (parse_value_skip fuel _ _ (skip_ws_line n _)).
    change (String.concat (separator n) (map (print n) [x])) with (print n x).
    rewrite Hx; [|simpl in Hfuel; lia|reflexivity].
    simpl. rewrite skip_ws_spaces. reflexivity.
  - destruct fuel as [|fuel]; [simpl in Hfuel; lia|].
    rewrite parse_elements_step.
    rewrite (parse_value_skip fuel _ _ (skip_ws_line n _)).
    change (map (print n) (x :: y :: l))
      with (print n x :: print n y :: map (print n) l).
    rewrite concat_cons_cons, !append_assoc, separator_append.
    rewrite Hx; [|simpl in Hfuel |- *; lia|reflexivity].
    simpl.
    change (print n y :: map (print n) l) with (map (print n) (y :: l)).
    rewrite IH; [reflexivity|assumption|].
    simpl in Hfuel |- *. lia.
Qed.

Lemma distinct_NoDup ks : distinct ks = true -> NoDup ks.
Proof.
  induction ks as [|k ks IH]; simpl; intros H; constructor.
  - apply andb_prop in H as [H _]. apply negb_true_iff in H.
    intros Hin. assert (existsb (String.eqb k) ks = true); [|congruence].
    apply existsb_exists. exists k. split; [assumption|apply String.eqb_refl].
  - apply andb_prop in H as [_ H]. auto.
Qed.

Lemma set_prop_fresh k v acc :
  ~ In k (map fst acc) -> set_prop k v acc = (acc ++ [(k, v)])%list.
Proof.
  induction acc as [|[k' v'] acc IH]; simpl; intros H; [reflexivity|].
  destruct (String.eqb_spec k k') as [->|Hne].
  - exfalso. auto.
  - rewrite IH; auto.
Qed.

Lemma parse_value_space fuel s :
  parse_value fuel (String " " s) = parse_value fuel s.
Proof. apply parse_value_skip. reflexivity. Qed.

Lemma members_read_back fs :
  Forall (fun kv => reads_back (snd kv)) fs ->
  forall kv acc fuel n ind r,
    reads_back (snd kv) ->
    NoDup (map fst (acc ++ kv :: fs)) ->
    (list_sum (map (fun y => S (size (snd y))) (kv :: fs)) <= fuel)%nat ->
    parse_members fuel acc
      (String newline
         (spaces n ++ String.concat (separator n) (map (member n) (kv :: fs)) ++
          String newline (spaces ind ++ String "}" r))) =
    Ok ((acc ++ kv :: fs)%list, r).
Proof.
  induction 1 as [|kv' fs Hy Hl IH]; intros [k v] acc fuel n ind r Hx Hnd Hfuel;
    cbn [snd] in Hx.
  - destruct fuel as [|fuel]; [simpl in Hfuel; lia|].
    rewrite parse_members_step. rewrite skip_ws_line.
    change (String.concat (separator n) (map (member n) [(k, v)]))
      with (member n (k, v)).
    unfold member. cbn [fst snd]. rewrite !append_assoc, quote_append.
    simpl. rewrite parse_chars_quote_body. simpl.
    rewrite parse_value_space.
    rewrite Hx; [|simpl in Hfuel; lia|reflexivity].
    simpl. rewrite skip_ws_spaces. simpl.
    rewrite set_prop_fresh; [reflexivity|].
    rewrite map_app in Hnd. apply NoDup_remove_2 in Hnd.
    intros Hin. apply Hnd. apply in_or_app. now left.
  - destruct fuel as [|fuel]; [simpl in Hfuel; lia|].
    rewrite parse_members_step. rewrite skip_ws_line.
    change (map (member n) ((k, v) :: kv' :: fs))
      with (member n (k, v) :: member n kv' :: map (member n) fs).
    rewrite concat_cons_cons.
    unfold member at 1. cbn [fst snd].
    rewrite !append_assoc, quote_append, separator_append.
    simpl. rewrite parse_chars_quote_body. simpl.
    rewrite parse_value_space.
    rewrite Hx; [|simpl in Hfuel |- *; lia|reflexivity].
    simpl.
    change (member n kv' :: map (member n) fs) with (map (member n) (kv' :: fs)).
    assert (Hfresh : ~ In k (map fst acc)).
    { rewrite map_app in Hnd. apply NoDup_remove_2 in Hnd.
      intros Hin. apply Hnd. apply in_or_app. now left. }
    rewrite (set_prop_fresh k v acc Hfresh).
    rewrite IH.
    + now rewrite <- app_assoc.
    + assumption.
    + now rewrite <- app_assoc.
    + simpl in Hfuel |- *. lia.
Qed.

Lemma concat_head sep a (l : list string) t :
  exists t', String.concat sep (a :: l) ++ t = a ++ t'.
Proof.
  destruct l as [|b l].
  - exists t. reflexivity.
  - rewrite concat_cons_cons, append_assoc. eexists. reflexivity.
Qed.

Lemma array_text_not_empty n x l t :
  strip_prefix "]"
    (skip_ws (String newline
                (spaces n ++ String.concat (separator n) (map (print n) (x :: l)) ++ t)))
  = None.
Proof.
  rewrite skip_ws_line.
  destruct (concat_head (separator n) (print n x) (map (print n) l) t) as [t' E].
  change (map (print n) (x :: l)) with (print n x :: map (print n) l).
  rewrite E, skip_ws_print. apply strip_bracket_print.
Qed.

Lemma object_text_not_empty n kv fs t :
  strip_prefix "}"
    (skip_ws (String newline
                (spaces n ++ String.concat (separator n) (map (member n) (kv :: fs)) ++ t)))
  = None.
Proof.
  rewrite skip_ws_line.
  destruct (concat_head (separator n) (member n kv) (map (member n) fs) t) as [t' E].
  change (map (member n) (kv :: fs)) with (member n kv :: map (member n) fs).
  rewrite E. unfold member. rewrite quote_append. reflexivity.
Qed.

#[local] Transparent print.

Lemma well_formed_array l :
  well_formed (VArr l) = true -> Forall (fun x => well_formed x = true) l.
Proof.
  simpl. intros H. apply Forall_forall. intros x Hx.
  rewrite forallb_forall in H. auto.
Qed.

Lemma well_formed_object fs :
  well_formed (VObj fs) = true ->
  NoDup (map fst fs) /\ Forall (fun kv => well_formed (snd kv) = true) fs.
Proof.
  simpl. intros H. apply andb_prop in H as [Hd Hf]. split.
  - now apply distinct_NoDup.
  - apply Forall_forall. intros x Hx. rewrite forallb_forall in Hf. auto.
Qed.

Lemma Forall_modus_ponens {A} (P Q : A -> Prop) l :
  Forall (fun x => P x -> Q x) l -> Forall P l -> Forall Q l.
Proof.
  induction 1; intros H'; inversion H'; subst; constructor; auto.
Qed.

(** Every value without a repeated key is read back from its text. *)
Lemma print_reads_back v : well_formed v = true -> reads_back v.
Proof.
  induction v as [|b|n|s|l IH|fs IH] using value_ind'; intros Hwf fuel ind r Hfuel Hr;
    (destruct fuel as [|fuel]; [simpl in Hfuel; lia|]).
  - reflexivity.
  - destruct b; reflexivity.
  - apply parse_value_number, Hr.
  - change (print ind (VStr s)) with (quote s).
    rewrite quote_append, parse_value_step. simpl.
    now rewrite parse_chars_quote_body.
  - destruct l as [|x l]; [reflexivity|].
    rewrite print_array_cons, !append_assoc.
    apply well_formed_array in Hwf.
    pose proof (Forall_modus_ponens _ _ _ IH Hwf) as Hrb.
    inversion Hrb as [|x' l' Hx Hl]; subst.
    rewrite parse_value_step.
    cbn [append skip_ws].
    change (is_json_space "[") with false. cbv iota.
    change (is_number_start "[") with false.
    change (Ascii.eqb "[" dquote) with false.
    change (Ascii.eqb "[" "n") with false.
    change (Ascii.eqb "[" "t") with false.
    change (Ascii.eqb "[" "f") with false.
    change (Ascii.eqb "[" "[") with true. cbv iota.
    rewrite array_text_not_empty.
    rewrite (elements_read_back l Hl x fuel (2 + ind) ind r Hx); [reflexivity|].
    simpl in Hfuel |- *. lia.
  - destruct fs as [|kv fs]; [reflexivity|].
    rewrite print_object_cons, !append_assoc.
    apply well_formed_object in Hwf as [Hnd Hwf].
    pose proof (Forall_modus_ponens _ _ _ IH Hwf) as Hrb.
    inversion Hrb as [|x' l' Hx Hl]; subst.
    rewrite parse_value_step.
    cbn [append skip_ws].
    change (is_json_space "{") with false. cbv iota.
    change (is_number_start "{") with false.
    change (Ascii.eqb "{" dquote) with false.
    change (Ascii.eqb "{" "n") with false.
    change (Ascii.eqb "{" "t") with false.
    change (Ascii.eqb "{" "f") with false.
    change (Ascii.eqb "{" "[") with false.
    change (Ascii.eqb "{" "{") with true. cbv iota.
    rewrite object_text_not_empty.
    rewrite (members_read_back fs Hl kv [] fuel (2 + ind) ind r Hx Hnd); [reflexivity|].
    simpl in Hfuel |- *. lia.
Qed.

(** The length of the text is fuel enough. *)
Lemma print_not_empty v ind : (1 <= String.length (print ind v))%nat.
Proof.
  destruct (print_head v ind "") as (c & s & E & _).
  rewrite append_empty_r in E. rewrite E. simpl. lia.
Qed.

#[local] Opaque print.

Lemma list_sum_cons a l : list_sum (a :: l) = (a + list_sum l)%nat.
Proof. reflexivity. Qed.

Lemma separator_not_empty n : (1 <= String.length (separator n))%nat.
Proof. unfold separator. simpl. lia. Qed.

Lemma elements_size_le n l :
  l <> [] ->
  Forall (fun y => forall ind, (size y <= String.length (print ind y))%nat) l ->
  (list_sum (map (fun y => S (size y)) l)
   <= S (String.length (String.concat (separator n) (map (print n) l))))%nat.
Proof.
  intros Hne H. induction H as [|x l Hx Hl IH]; [congruence|].
  destruct l as [|y l].
  - specialize (Hx n). simpl. change (String.concat (separator n) [print n x]) with (print n x). lia.
  - change (map (print n) (x :: y :: l))
      with (print n x :: print n y :: map (print n) l).
    rewrite concat_cons_cons, !length_append.
    change (print n y :: map (print n) l) with (map (print n) (y :: l)).
    assert (IH' := IH ltac:(discriminate)).
    specialize (Hx n).
    change (map (fun y0 => S (size y0)) (x :: y :: l))
      with (S (size x) :: map (fun y0 => S (size y0)) (y :: l)).
    rewrite list_sum_cons. pose proof (separator_not_empty n). lia.
Qed.

Lemma members_size_le n fs :
  fs <> [] ->
  Forall (fun kv => forall ind, (size (snd kv) <= String.length (print ind (snd kv)))%nat) fs ->
  (list_sum (map (fun kv => S (size (snd kv))) fs)
   <= S (String.length (String.concat (separator n) (map (member n) fs))))%nat.
Proof.
  intros Hne H. induction H as [|x l Hx Hl IH]; [congruence|].
  assert (Hm : (size (snd x) <= String.length (member n x))%nat).
  { unfold member. rewrite !length_append. specialize (Hx n). lia. }
  destruct l as [|y l].
  - simpl. change (String.concat (separator n) [member n x]) with (member n x). lia.
  - change (map (member n) (x :: y :: l))
      with (member n x :: member n y :: map (member n) l).
    rewrite concat_cons_cons, !length_append.
    change (member n y :: map (member n) l) with (map (member n) (y :: l)).
    assert (IH' := IH ltac:(discriminate)).
    change (map (fun kv => S (size (snd kv))) (x :: y :: l))
      with (S (size (snd x)) :: map (fun kv => S (size (snd kv))) (y :: l)).
    rewrite list_sum_cons. pose proof (separator_not_empty n). lia.
Qed.

Lemma size_le_length v : forall ind, (size v <= String.length (print ind v))%nat.
Proof.
  induction v as [|b|n|s|l IH|fs IH] using value_ind'; intros ind;
    try apply print_not_empty.
  - destruct l as [|x l]; [apply print_not_empty|].
    rewrite print_array_cons, !length_append.
    pose proof (elements_size_le (2 + ind) (x :: l) ltac:(discriminate) IH).
    change (size (VArr (x :: l)))
      with (S (list_sum (map (fun y => S (size y)) (x :: l)))).
    set (body := String.length (String.concat _ _)) in *.
    simpl String.length. lia.
  - destruct fs as [|kv fs]; [apply print_not_empty|].
    rewrite print_object_cons, !length_append.
    pose proof (members_size_le (2 + ind) (kv :: fs) ltac:(discriminate) IH).
    change (size (VObj (kv :: fs)))
      with (S (list_sum (map (fun y => S (size (snd y))) (kv :: fs)))).
    set (body := String.length (String.concat _ _)) in *.
    simpl String.length. lia.
Qed.

#[local] Transparent String.concat print parse_value parse_elements
  parse_members parse_chars.

(** [JSON.parse(JSON.stringify(v, null, 2))] is [v]. *)
Lemma parse_stringify v :
  well_formed v = true -> JSON_parse (JSON_stringify v) = Ok v.
Proof.
  intros Hwf. unfold JSON_parse, JSON_stringify.
  pose proof (print_reads_back v Hwf (S (2 * String.length (print 0 v))) 0 "") as H.
  rewrite append_empty_r in H.
  rewrite H; [reflexivity| |reflexivity].
  pose proof (size_le_length v 0). lia.
Qed.

(** *** The fuel is enough *)

Lemma skip_ws_length s : String.length (skip_ws s) <= String.length s.
Proof.
  induction s as [|c s IH]; simpl; [lia|].
  destruct (is_json_space c); simpl; lia.
Qed.

Lemma skip_ws_cons s c r :
  skip_ws s = String c r -> String.length r < String.length s.
Proof.
  intros H. pose proof (skip_ws_length s) as L. rewrite H in L. simpl in L. lia.
Qed.

Lemma strip_prefix_length p s r :
  strip_prefix p s = Some r ->
  String.length r + String.length p = String.length s.
Proof.
  revert s. induction p as [|a p IH]; intros s H; simpl in H.
  - injection H as ->. simpl. lia.
  - destruct s as [|b s]; [discriminate|].
    destruct (Ascii.eqb a b); [|discriminate].
    apply IH in H. simpl. lia.
Qed.

Lemma scan_digits_length s u r :
  scan_digits s = (u, r) ->
  String.length r <= String.length s /\
  (u <> Nil -> String.length r < String.length s).
Proof.
  revert u r. induction s as [|c s IH]; intros u r H; simpl in H.
  - injection H as <- <-. split; [lia|congruence].
  - destruct (digit_of c) as [d|].
    + destruct (scan_digits s) as [u' r'] eqn:E. injection H as <- <-.
      destruct (IH u' r' eq_refl) as [L _]. simpl. split; lia.
    + injection H as <- <-. split; [lia|congruence].
Qed.

Lemma parse_number_length s n r :
  parse_number s = Ok (n, r) -> String.length r < String.length s.
Proof.
  unfold parse_number. intros H.
  destruct (match s with
            | EmptyString => (false, s)
            | String c s' => if Ascii.eqb c "-" then (true, s') else (false, s)
            end) as [negative s1] eqn:E1.
  assert (L1 : String.length s1 <= String.length s).
  { destruct s as [|c s']; [injection E1 as _ <-; lia|].
    destruct (Ascii.eqb c "-"); injection E1 as _ <-; simpl; lia. }
  destruct (scan_digits s1) as [u r'] eqn:E2.
  apply scan_digits_length in E2 as [_ L2].
  destruct u; try discriminate;
    (destruct (_ || _); [discriminate|]; injection H as _ <-;
     assert (String.length r' < String.length s1) by (apply L2; discriminate);
     lia).
Qed.

Lemma parse_chars_length s str r :
  parse_chars s = Ok (str, r) -> String.length r < String.length s.
Proof.
  remember (String.length s) as n eqn:Hn.
  revert s str r Hn. induction n as [n IH] using lt_wf_ind.
  intros s str r Hn H. subst n.
  destruct s as [|c s]; [discriminate|]. simpl in H.
  destruct (Ascii.eqb c dquote).
  { injection H as _ <-. simpl. lia. }
  destruct (Ascii.eqb c backslash).
  - destruct s as [|e s]; [discriminate|].
    destruct (short_escape e).
    + destruct (parse_chars s) as [[str' r']|] eqn:E; [|discriminate].
      simpl in H. injection H as _ <-.
      pose proof (IH (String.length s) ltac:(simpl; lia) s str' r' eq_refl E).
      simpl. lia.
    + destruct (Ascii.eqb e "u"); [|discriminate].
      destruct s as [|h1 [|h2 [|h3 [|h4 s]]]]; try discriminate.
      destruct (unicode_escape h1 h2 h3 h4); [|discriminate].
      destruct (parse_chars s) as [[str' r']|] eqn:E; [|discriminate].
      simpl in H. injection H as _ <-.
      pose proof (IH (String.length s) ltac:(simpl; lia) s str' r' eq_refl E).
      simpl. lia.
  - destruct (Nat.ltb (nat_of_ascii c) 32); [discriminate|].
    destruct (parse_chars s) as [[str' r']|] eqn:E; [|discriminate].
    simpl in H. injection H as _ <-.
    pose proof (IH (String.length s) ltac:(simpl; lia) s str' r' eq_refl E).
    simpl. lia.
Qed.

#[local] Opaque parse_chars parse_number.

(** What a parser returns is shorter than what it was given. *)
Lemma parsers_consume fuel :
  (forall s v r,
      parse_value fuel s = Ok (v, r) -> String.length r < String.length s) /\
  (forall s l r,
      parse_elements fuel s = Ok (l, r) -> String.length r < String.length s) /\
  (forall acc s fs r,
      parse_members fuel acc s = Ok (fs, r) ->
      String.length r < String.length s).
Proof.
  induction fuel as [|fuel (IHv & IHe & IHm)];
    [repeat split; intros; discriminate|].
  repeat split.
  - intros s v r H. rewrite parse_value_step in H.
    destruct (skip_ws s) as [|c t] eqn:Es; [discriminate|].
    apply skip_ws_cons in Es.
    destruct (is_number_start c).
    { destruct (parse_number (String c t)) as [[n r']|] eqn:E; [|discriminate].
      apply parse_number_length in E. cbn [bind] in H; simpl in E. injection H as _ <-. lia. }
    destruct (Ascii.eqb c dquote).
    { destruct (parse_chars t) as [[str r']|] eqn:E; [|discriminate].
      apply parse_chars_length in E. cbn [bind] in H. injection H as _ <-. lia. }
    destruct (Ascii.eqb c "n").
    { destruct (strip_prefix "ull" t) eqn:E; [|discriminate].
      apply strip_prefix_length in E. injection H as _ <-. lia. }
    destruct (Ascii.eqb c "t").
    { destruct (strip_prefix "rue" t) eqn:E; [|discriminate].
      apply strip_prefix_length in E. injection H as _ <-. lia. }
    destruct (Ascii.eqb c "f").
    { destruct (strip_prefix "alse" t) eqn:E; [|discriminate].
      apply strip_prefix_length in E. injection H as _ <-. lia. }
    destruct (Ascii.eqb c "[").
    { destruct (strip_prefix "]" (skip_ws t)) eqn:E.
      - apply strip_prefix_length in E. pose proof (skip_ws_length t).
        injection H as _ <-. lia.
      - destruct (parse_elements fuel t) as [[l r']|] eqn:E'; [|discriminate].
        apply IHe in E'. cbn [bind] in H. injection H as _ <-. lia. }
    destruct (Ascii.eqb c "{"); [|discriminate].
    destruct (strip_prefix "}" (skip_ws t)) eqn:E.
    + apply strip_prefix_length in E. pose proof (skip_ws_length t).
      injection H as _ <-. lia.
    + destruct (parse_members fuel [] t) as [[fs r']|] eqn:E'; [|discriminate].
      apply IHm in E'. cbn [bind] in H. injection H as _ <-. lia.
  - intros s l r H. rewrite parse_elements_step in H.
    destruct (parse_value fuel s) as [[v r1]|] eqn:E; [|discriminate].
    apply IHv in E. cbn [bind] in H.
    destruct (skip_ws r1) as [|c t] eqn:Es; [discriminate|].
    apply skip_ws_cons in Es.
    destruct (Ascii.eqb c ",").
    + destruct (parse_elements fuel t) as [[l' r']|] eqn:E'; [|discriminate].
      apply IHe in E'. cbn [bind] in H. injection H as _ <-. lia.
    + destruct (Ascii.eqb c "]"); [|discriminate]. injection H as _ <-. lia.
  - intros acc s fs r H. rewrite parse_members_step in H.
    destruct (strip_prefix (String dquote "") (skip_ws s)) as [t|] eqn:E0;
      [|discriminate].
    apply strip_prefix_length in E0. pose proof (skip_ws_length s).
    destruct (parse_chars t) as [[k r1]|] eqn:E1; [|discriminate].
    apply parse_chars_length in E1. cbn [bind] in H.
    destruct (strip_prefix ":" (skip_ws r1)) as [r2|] eqn:E2; [|discriminate].
    apply strip_prefix_length in E2. pose proof (skip_ws_length r1).
    destruct (parse_value fuel r2) as [[v r3]|] eqn:E3; [|discriminate].
    apply IHv in E3. cbn [bind] in H.
    destruct (skip_ws r3) as [|c r4] eqn:Es; [discriminate|].
    apply skip_ws_cons in Es.
    destruct (Ascii.eqb c ",").
    + apply IHm in H. lia.
    + destruct (Ascii.eqb c "}"); [|discriminate]. injection H as _ <-. lia.
Qed.

(** With twice the length of the text as fuel, and one or two more, more
    fuel changes no result: no text is rejected for lack of fuel. *)
Lemma fuel_stable f1 :
  (forall f2 s,
      2 * String.length s + 1 <= f1 -> 2 * String.length s + 1 <= f2 ->
      parse_value f1 s = parse_value f2 s) /\
  (forall f2 s,
      2 * String.length s + 2 <= f1 -> 2 * String.length s + 2 <= f2 ->
      parse_elements f1 s = parse_elements f2 s) /\
  (forall f2 acc s,
      2 * String.length s + 1 <= f1 -> 2 * String.length s + 1 <= f2 ->
      parse_members f1 acc s = parse_members f2 acc s).
Proof.
  induction f1 as [|f1 (IHv & IHe & IHm)];
    [repeat split; intros; lia|].
  repeat split.
  - intros [|f2] s H1 H2; [lia|]. rewrite !parse_value_step.
    destruct (skip_ws s) as [|c t] eqn:Es; [reflexivity|].
    apply skip_ws_cons in Es.
    rewrite (IHe f2 t) by lia. rewrite (IHm f2 [] t) by lia. reflexivity.
  - intros [|f2] s H1 H2; [lia|]. rewrite !parse_elements_step.
    rewrite (IHv f2 s) by lia.
    destruct (parse_value f2 s) as [[v r1]|] eqn:E; [|reflexivity].
    apply parsers_consume in E. cbn [bind].
    destruct (skip_ws r1) as [|c t] eqn:Es; [reflexivity|].
    apply skip_ws_cons in Es.
    rewrite (IHe f2 t) by lia. reflexivity.
  - intros [|f2] acc s H1 H2; [lia|]. rewrite !parse_members_step.
    destruct (strip_prefix (String dquote "") (skip_ws s)) as [t|] eqn:E0;
      [|reflexivity].
    apply strip_prefix_length in E0. pose proof (skip_ws_length s).
    destruct (parse_chars t) as [[k r1]|] eqn:E1; [|reflexivity].
    apply parse_chars_length in E1. cbn [bind].
    destruct (strip_prefix ":" (skip_ws r1)) as [r2|] eqn:E2; [|reflexivity].
    apply strip_prefix_length in E2. pose proof (skip_ws_length r1).
    simpl in E0, E2.
    rewrite (IHv f2 r2) by lia.
    destruct (parse_value f2 r2) as [[v r3]|] eqn:E3; [|reflexivity].
    apply parsers_consume in E3. cbn [bind].
    destruct (skip_ws r3) as [|c r4] eqn:Es; [reflexivity|].
    apply skip_ws_cons in Es.
    rewrite (IHm f2 (set_prop k v acc) r4) by lia. reflexivity.
Qed.

#[local] Transparent parse_chars parse_number.

(** [JSON_parse] does not depend on its choice of fuel. *)
Lemma fuel_is_enough text fuel :
  S (2 * String.length text) <= fuel ->
  parse_value fuel text = parse_value (S (2 * String.length text)) text.
Proof.
  intros H. apply fuel_stable; lia.
Qed.

#[local] Open Scope Z_scope.

(** ** Export and Import *)

#[local] Arguments truthy : simpl never.

Lemma JSON_parse_export st0 :
  well_formed (nodes st0) = true ->
  well_formed (edges st0) = true ->
  JSON_parse (handleExport st0) =
  Ok (VObj [("nodes", nodes st0); ("edges", edges st0)]).
Proof.
  intros Hn He. unfold handleExport. apply parse_stringify.
  simpl. now rewrite Hn, He.
Qed.

(** C1.  For every graph [g] (arrays of nodes and edges in which no object
    repeats a key), importing the text that Export writes for [g] installs
    the nodes and the edges of [g], whatever the store held before: nothing
    of the prior nodes and edges remains, and the rest of the state is
    untouched.  Unique ids and valid edges are not needed for it. *)
Theorem export_import_round_trip g st ns es :
  nodes g = VArr ns ->
  edges g = VArr es ->
  well_formed (VArr ns) = true ->
  well_formed (VArr es) = true ->
  exists st',
    handleFileSelect (Some (handleExport g)) st = st' /\
    nodes st' = nodes g /\
    edges st' = edges g /\
    st' = setEdges (edges g) (setNodes (nodes g) st).
Proof.
  intros Hn He Wn We.
  assert (E : handleFileSelect (Some (handleExport g)) st =
              setEdges (edges g) (setNodes (nodes g) st)).
  { unfold handleFileSelect, onload.
    rewrite JSON_parse_export by (rewrite ?Hn, ?He; assumption).
    rewrite Hn, He. reflexivity. }
  rewrite E. eexists. repeat split.
Qed.

Lemma export_import_round_trip_witness :
  nodes sample_state = VArr two_nodes /\
  edges sample_state = VArr one_edge /\
  well_formed (VArr two_nodes) = true /\
  well_formed (VArr one_edge) = true /\
  exists st',
    handleFileSelect (Some (handleExport sample_state)) initial_state = st' /\
    nodes st' = nodes sample_state /\
    edges st' = edges sample_state /\
    st' = setEdges (edges sample_state) (setNodes (nodes sample_state) initial_state).
Proof.
  split; [reflexivity|]. split; [reflexivity|].
  split; [reflexivity|]. split; [reflexivity|].
  apply (export_import_round_trip sample_state initial_state two_nodes one_edge);
    reflexivity.
Defined.

Lemma onload_parsed text json st :
  JSON_parse text = Ok json ->
  onload text st =
  try_catch
    (n <- prop json "nodes" ;;
     if truthy n then
       e <- prop json "edges" ;;
       if truthy e then
         match n, e with
         | Some n', Some e' => Ok (setEdges e' (setNodes n' st))
         | _, _ => Ok st
         end
       else Ok st
     else Ok st)
    (setError "Invalid JSON file" st).
Proof.
  intros H. unfold onload. now rewrite H.
Qed.

(** C4, as the program has it.  For every state and every document that
    parses and lacks [nodes] or [edges], Import leaves the nodes and the
    edges as they are.  It reports nothing: the whole state, the message
    included, is unchanged; only for the document [null] is the message
    "Invalid JSON file" set. *)
Theorem import_without_fields text json st :
  JSON_parse text = Ok json ->
  has_field json "nodes" && has_field json "edges" = false ->
  nodes (onload text st) = nodes st /\
  edges (onload text st) = edges st /\
  (json <> VNull -> onload text st = st) /\
  (json = VNull -> onload text st = setError "Invalid JSON file" st).
Proof.
  intros Hp Hf. rewrite (onload_parsed text json st Hp).
  destruct json as [|b|z|s|l|fs];
    try (simpl; repeat split; solve [reflexivity | congruence | discriminate]).
  simpl in Hf |- *.
  destruct (assoc "nodes" fs) as [n|]; simpl in Hf |- *.
  - destruct (assoc "edges" fs) as [e|]; [discriminate|].
    destruct (truthy (Some n)); simpl; repeat split; discriminate.
  - change (truthy None) with false. simpl. repeat split; discriminate.
Qed.

Lemma import_without_fields_witness :
  JSON_parse "{}" = Ok (VObj []) /\
  has_field (VObj []) "nodes" && has_field (VObj []) "edges" = false /\
  nodes (onload "{}" sample_state) = nodes sample_state /\
  edges (onload "{}" sample_state) = edges sample_state /\
  (VObj [] <> VNull -> onload "{}" sample_state = sample_state) /\
  (VObj [] = VNull ->
   onload "{}" sample_state = setError "Invalid JSON file" sample_state).
Proof.
  split; [reflexivity|]. split; [reflexivity|].
  apply (import_without_fields "{}" (VObj []) sample_state); reflexivity.
Defined.

(** C4 as stated fails on the document [{}]: it parses, it has neither
    field, the store is unchanged, and no message is set. *)
Lemma import_empty_object_counterexample :
  JSON_parse "{}" = Ok (VObj []) /\
  has_field (VObj []) "nodes" = false /\
  has_field (VObj []) "edges" = false /\
  onload "{}" initial_state = initial_state /\
  error (onload "{}" initial_state) = "" /\
  error (onload "{}" initial_state) <> "Invalid JSON file".
Proof.
  repeat split. discriminate.
Qed.



(** A number and a string are installed as the nodes and the edges. *)
Lemma import_untyped_document :
  nodes (onload untyped_document sample_state) = VNum 5 /\
  edges (onload untyped_document sample_state) = VStr "x" /\
  error (onload untyped_document sample_state) = error sample_state.
Proof. repeat split. Qed.

(** [null] for the nodes, or [0] for the edges: nothing happens. *)
Lemma import_falsy_documents :
  onload falsy_nodes_document sample_state = sample_state /\
  onload falsy_edges_document sample_state = sample_state.
Proof. split; reflexivity. Qed.

(** ** The modal *)

(** A click on a node record opens the modal on it. *)
Lemma handleNodeClick_record i l d fs st :
  assoc "id" fs = Some (VStr i) ->
  assoc "data" fs = Some (VObj [("label", VStr l); ("description", VStr d)]) ->
  handleNodeClick (VObj fs) st = Some (editing i l d st) /\
  session (editing i l d st) = EditingExisting.
Proof.
  intros Hi Hd. unfold handleNodeClick. rewrite Hi, Hd. split; reflexivity.
Qed.

(** The seed node has no description: the form shows the empty string. *)
Lemma handleNodeClick_seed :
  exists seed,
    nodes initial_state = VArr [seed] /\
    handleNodeClick seed initial_state = Some (editing "1" "Start" "" initial_state).
Proof. eexists. split; reflexivity. Qed.

Lemma handleAddNode_session st : session (handleAddNode st) = AddingNew.
Proof. reflexivity. Qed.

(** ** Well-formed values stay well formed *)

Lemma distinct_append_fresh k ks :
  distinct ks = true ->
  existsb (String.eqb k) ks = false ->
  distinct (ks ++ [k]) = true.
Proof.
  induction ks as [|a ks IH]; simpl; [reflexivity|].
  intros Hd Hk. apply andb_prop in Hd as [Ha Hd].
  apply orb_false_elim in Hk as [Hka Hk].
  rewrite IH by assumption. rewrite andb_true_r.
  rewrite existsb_app. simpl. rewrite orb_false_r.
  apply negb_true_iff in Ha. rewrite Ha. simpl.
  now rewrite String.eqb_sym, Hka.
Qed.

Lemma set_prop_distinct k v fs :
  distinct (map fst fs) = true ->
  distinct (map fst (set_prop k v fs)) = true.
Proof.
  intros H. rewrite set_prop_keys.
  destruct (existsb (String.eqb k) (map fst fs)) eqn:E; [assumption|].
  now apply distinct_append_fresh.
Qed.

Lemma set_prop_well_formed k v fs :
  well_formed v = true ->
  forallb (fun kv => well_formed (snd kv)) fs = true ->
  forallb (fun kv => well_formed (snd kv)) (set_prop k v fs) = true.
Proof.
  intros Hv. induction fs as [|[k' v'] fs IH]; simpl.
  - now rewrite Hv.
  - intros H. apply andb_prop in H as [H1 H2].
    destruct (String.eqb k k'); simpl.
    + now rewrite Hv, H2.
    + now rewrite H1, IH.
Qed.

(** [{...n, k: v}] on a record. *)
Lemma set_prop_record k v fs :
  well_formed (VObj fs) = true ->
  well_formed v = true ->
  well_formed (VObj (set_prop k v fs)) = true.
Proof.
  simpl. intros H Hv. apply andb_prop in H as [H1 H2].
  now rewrite set_prop_distinct, set_prop_well_formed.
Qed.

(** What [JSON.parse] returns is well formed. *)
Lemma parsers_well_formed fuel :
  (forall s v r, parse_value fuel s = Ok (v, r) -> well_formed v = true) /\
  (forall s l r,
      parse_elements fuel s = Ok (l, r) -> forallb well_formed l = true) /\
  (forall acc s fs r,
      parse_members fuel acc s = Ok (fs, r) ->
      well_formed (VObj acc) = true -> well_formed (VObj fs) = true).
Proof.
  induction fuel as [|fuel (IHv & IHe & IHm)];
    [repeat split; intros; discriminate|].
  repeat split.
  - intros s v r H. rewrite parse_value_step in H.
    destruct (skip_ws s) as [|c t]; [discriminate|].
    destruct (is_number_start c).
    { destruct (parse_number (String c t)) as [[n r']|]; [|discriminate].
      cbn [bind] in H. now injection H as <- _. }
    destruct (Ascii.eqb c dquote).
    { destruct (parse_chars t) as [[str r']|]; [|discriminate].
      cbn [bind] in H. now injection H as <- _. }
    destruct (Ascii.eqb c "n").
    { destruct (strip_prefix "ull" t); [|discriminate]. now injection H as <- _. }
    destruct (Ascii.eqb c "t").
    { destruct (strip_prefix "rue" t); [|discriminate]. now injection H as <- _. }
    destruct (Ascii.eqb c "f").
    { destruct (strip_prefix "alse" t); [|discriminate]. now injection H as <- _. }
    destruct (Ascii.eqb c "[").
    { destruct (strip_prefix "]" (skip_ws t)).
      - now injection H as <- _.
      - destruct (parse_elements fuel t) as [[l r']|] eqn:E; [|discriminate].
        cbn [bind] in H. injection H as <- _. exact (IHe _ _ _ E). }
    destruct (Ascii.eqb c "{"); [|discriminate].
    destruct (strip_prefix "}" (skip_ws t)).
    + now injection H as <- _.
    + destruct (parse_members fuel [] t) as [[fs r']|] eqn:E; [|discriminate].
      cbn [bind] in H. injection H as <- _. exact (IHm _ _ _ _ E eq_refl).
  - intros s l r H. rewrite parse_elements_step in H.
    destruct (parse_value fuel s) as [[v r1]|] eqn:E; [|discriminate].
    apply IHv in E. cbn [bind] in H.
    destruct (skip_ws r1) as [|c t]; [discriminate|].
    destruct (Ascii.eqb c ",").
    + destruct (parse_elements fuel t) as [[l' r']|] eqn:E'; [|discriminate].
      apply IHe in E'. cbn [bind] in H. injection H as <- _.
      simpl. now rewrite E, E'.
    + destruct (Ascii.eqb c "]"); [|discriminate]. injection H as <- _.
      simpl. now rewrite E.
  - intros acc s fs r H Hacc. rewrite parse_members_step in H.
    destruct (strip_prefix (String dquote "") (skip_ws s)) as [t|];
      [|discriminate].
    destruct (parse_chars t) as [[k r1]|]; [|discriminate].
    cbn [bind] in H.
    destruct (strip_prefix ":" (skip_ws r1)) as [r2|]; [|discriminate].
    destruct (parse_value fuel r2) as [[v r3]|] eqn:E3; [|discriminate].
    apply IHv in E3. cbn [bind] in H.
    destruct (skip_ws r3) as [|c r4]; [discriminate|].
    pose proof (set_prop_record k v acc Hacc E3) as Hacc'.
    destruct (Ascii.eqb c ",").
    + exact (IHm _ _ _ _ H Hacc').
    + destruct (Ascii.eqb c "}"); [|discriminate]. now injection H as <- _.
Qed.

Lemma JSON_parse_well_formed text json :
  JSON_parse text = Ok json -> well_formed json = true.
Proof.
  unfold JSON_parse. intros H.
  destruct (parse_value _ text) as [[v r]|] eqn:E; [|discriminate].
  cbn [bind] in H. destruct (skip_ws r); [|discriminate].
  injection H as <-. now apply parsers_well_formed in E.
Qed.

Lemma assoc_well_formed k fs v :
  well_formed (VObj fs) = true -> assoc k fs = Some v -> well_formed v = true.
Proof.
  simpl. intros H. apply andb_prop in H as [_ H].
  induction fs as [|[k' v'] fs IH]; simpl in *; [discriminate|].
  apply andb_prop in H as [H1 H2].
  destruct (String.eqb k k'); [now intros [= <-]|auto].
Qed.

(** Import keeps the store well formed. *)
Lemma onload_well_formed text st :
  well_formed (nodes st) = true ->
  well_formed (edges st) = true ->
  well_formed (nodes (onload text st)) = true /\
  well_formed (edges (onload text st)) = true.
Proof.
  intros Hn He. unfold onload.
  destruct (JSON_parse text) as [json|] eqn:Hp; [|now split].
  apply JSON_parse_well_formed in Hp. cbn [bind].
  destruct json as [|b|z|s|l|fs]; try (now split).
  cbn [prop bind].
  destruct (assoc "nodes" fs) as [n|] eqn:En; [|now split].
  destruct (truthy (Some n)); [|now split].
  destruct (assoc "edges" fs) as [e|] eqn:Ee; [|now split].
  destruct (truthy (Some e)); [|now split].
  simpl. split; eapply assoc_well_formed; eauto.
Qed.

Lemma AddNode_array uuid l d st ns :
  nodes st = VArr ns ->
  all_white_space l = false ->
  AddNode uuid l d st =
  Ok (setShowModal false
        (setNodes
           (VArr (ns ++ [new_node uuid (Z.of_nat (List.length ns))
                           {| id := ""; label := l; description := d |}]))
           (setError "" (adding l d st)))).
Proof.
  intros Hn Hl. unfold AddNode, handleSaveNode.
  rewrite blank_label_test. simpl. now rewrite Hl, Hn.
Qed.

Lemma forallb_map_idx {A B} (p : B -> bool) (g : A -> nat -> B) l :
  (forall x j, In x l -> p (g x j) = true) ->
  forall i, forallb p (map_idx g i l) = true.
Proof.
  induction l as [|x xs IH]; intros H i; simpl; [reflexivity|].
  rewrite (H x i (or_introl eq_refl)), IH; [reflexivity|].
  intros y j Hy. apply H. now right.
Qed.

(** Save, Delete and AutoArrange keep a graph well formed. *)
Lemma handlers_keep_well_formed uuid i l d st ns es :
  is_graph st ns es ->
  well_formed (nodes st) = true ->
  well_formed (edges st) = true ->
  forall st',
    AddNode uuid l d st = Ok st' \/ UpdateNode uuid i l d st = Ok st' \/
    DeleteNode i st = Ok st' \/ autoArrange st = Ok st' ->
    well_formed (nodes st') = true /\ well_formed (edges st') = true.
Proof.
  intros G Wn We st' H.
  pose proof G as (Hn & He & Rn & Re).
  assert (Wns : forallb well_formed ns = true) by (now rewrite Hn in Wn).
  assert (Blank : forall s, handleSaveNode uuid s = Ok st' ->
                  all_white_space (label (currentNode s)) = true ->
                  nodes s = nodes st -> edges s = edges st ->
                  well_formed (nodes st') = true /\ well_formed (edges st') = true).
  { intros s Hs Hb En Ee. rewrite (handleSaveNode_blank uuid s Hb) in Hs.
    injection Hs as <-. simpl. now rewrite En, Ee. }
  destruct H as [H|[H|[H|H]]].
  - destruct (all_white_space l) eqn:Hl.
    { apply (Blank _ H); auto. }
    rewrite (AddNode_array uuid l d st ns Hn Hl) in H. injection H as <-.
    simpl. split; [|assumption].
    rewrite forallb_app, Wns. reflexivity.
  - destruct (all_white_space l) eqn:Hl.
    { apply (Blank _ H); auto. }
    rewrite (UpdateNode_graph uuid i l d st ns es G Hl) in H. injection H as <-.
    simpl. split; [|assumption].
    apply forallb_map_idx. intros x j Hx. unfold updated.
    pose proof (forallb_In _ _ _ Wns Hx) as Wx.
    destruct (has_id _ x); [|assumption].
    pose proof (forallb_In _ _ _ Rn Hx) as Rx.
    destruct x; try discriminate. now apply set_prop_record.
  - rewrite (DeleteNode_graph i st ns es G) in H. injection H as <-.
    simpl. rewrite He in We. simpl in We.
    split; now apply forallb_filter.
  - rewrite (autoArrange_array st ns Hn) in H. injection H as <-.
    simpl. split; [|assumption].
    apply forallb_map_idx. intros x j Hx. unfold arranged.
    pose proof (forallb_In _ _ _ Wns Hx) as Wx.
    pose proof (forallb_In _ _ _ Rn Hx) as Rx.
    destruct x; try discriminate. now apply set_prop_record.
Qed.

Lemma initial_state_well_formed :
  well_formed (nodes initial_state) = true /\
  well_formed (edges initial_state) = true.
Proof. split; reflexivity. Qed.

(** * Further properties of the handlers *)

(** ** Import *)

Lemma skip_ws_all_json_space s : all_json_space s = true -> skip_ws s = "".
Proof.
  induction s as [|c s IH]; simpl; [reflexivity|].
  intros H. apply andb_prop in H as [Hc Hs]. rewrite Hc. auto.
Qed.

Lemma JSON_parse_blank text :
  all_json_space text = true -> JSON_parse text = Throw SyntaxError.
Proof.
  intros H. unfold JSON_parse. rewrite parse_value_step.
  now rewrite (skip_ws_all_json_space text H).
Qed.

(** The three outcomes of [onload]; which one it is depends on the text
    only. *)
Lemma onload_cases text :
  (forall st, onload text st = st) \/
  (forall st, onload text st = setError "Invalid JSON file" st) \/
  (exists n e, forall st, onload text st = setEdges e (setNodes n st)).
Proof.
  unfold onload. destruct (JSON_parse text) as [json|]; [|now right; left].
  cbn [bind].
  destruct (prop json "nodes") as [n|]; [|now right; left]. cbn [bind].
  destruct (truthy n); [|now left].
  destruct (prop json "edges") as [e|]; [|now right; left]. cbn [bind].
  destruct (truthy e); [|now left].
  destruct n as [n|]; [|now left]. destruct e as [e|]; [|now left].
  right; right. now exists n, e.
Qed.

(** X1.  A file that is empty or holds white space only does not parse:
    Import sets the message "Invalid JSON file" and leaves the nodes, the
    edges, the modal and the form as they are. *)
Theorem import_blank_file_rejected text st :
  all_json_space text = true ->
  handleFileSelect (Some text) st = setError "Invalid JSON file" st /\
  nodes (handleFileSelect (Some text) st) = nodes st /\
  edges (handleFileSelect (Some text) st) = edges st /\
  error (handleFileSelect (Some text) st) = "Invalid JSON file".
Proof.
  intros H. unfold handleFileSelect, onload.
  rewrite (JSON_parse_blank text H). repeat split.
Qed.

Lemma import_blank_file_rejected_witness :
  all_json_space "  " = true /\
  handleFileSelect (Some "  ") sample_state =
    setError "Invalid JSON file" sample_state /\
  nodes (handleFileSelect (Some "  ") sample_state) = nodes sample_state /\
  edges (handleFileSelect (Some "  ") sample_state) = edges sample_state /\
  error (handleFileSelect (Some "  ") sample_state) = "Invalid JSON file".
Proof.
  split; [reflexivity|].
  apply (import_blank_file_rejected "  " sample_state). reflexivity.
Defined.

(** X2.  Import never touches the edit session: whatever the file holds,
    the modal, its mode and the form are as before.  An import that lands
    while a node is being edited leaves the form on that node, even when
    the imported graph no longer has it. *)
Theorem import_keeps_session text st :
  showModal (onload text st) = showModal st /\
  isEditMode (onload text st) = isEditMode st /\
  currentNode (onload text st) = currentNode st /\
  session (onload text st) = session st.
Proof.
  destruct (onload_cases text) as [E|[E|(n & e & E)]]; rewrite E;
    repeat split.
Qed.

(** X3.  The message of a failed Import is never on screen when the file
    is read with the modal closed: the alert is inside the modal, and both
    ways of opening the modal clear the message first. *)
Theorem import_error_never_shown text st :
  showModal st = false ->
  alert (onload text st) = None /\
  alert (handleAddNode (onload text st)) = None /\
  (forall node st',
      handleNodeClick node (onload text st) = Some st' -> alert st' = None).
Proof.
  intros H. split; [|split].
  - unfold alert.
    destruct (onload_cases text) as [E|[E|(n & e & E)]]; rewrite E; simpl;
      now rewrite H.
  - reflexivity.
  - intros node st' Hc. unfold handleNodeClick in Hc.
    destruct node as [| | | | |fs]; try discriminate.
    destruct (assoc "id" fs) as [[| | |i| |]|]; try discriminate.
    destruct (assoc "data" fs) as [[| | | | |d]|]; try discriminate.
    destruct (string_or_empty (assoc "label" d)); try discriminate.
    destruct (string_or_empty (assoc "description" d)); try discriminate.
    now injection Hc as <-.
Qed.

Lemma import_error_never_shown_witness :
  showModal sample_state = false /\
  alert (onload "[" sample_state) = None /\
  error (onload "[" sample_state) = "Invalid JSON file" /\
  alert (handleAddNode (onload "[" sample_state)) = None /\
  (forall node st',
      handleNodeClick node (onload "[" sample_state) = Some st' ->
      alert st' = None).
Proof.
  split; [reflexivity|].
  pose proof (import_error_never_shown "[" sample_state eq_refl) as (H1 & H2 & H3).
  split; [exact H1|]. split; [reflexivity|]. split; [exact H2 | exact H3].
Defined.

(** X4.  Importing the same file twice is importing it once. *)
Theorem import_idempotent text st :
  onload text (onload text st) = onload text st.
Proof.
  destruct (onload_cases text) as [E|[E|(n & e & E)]]; now rewrite !E.
Qed.

(** X5.  What Export writes always parses, to the document with the two
    fields [nodes] and [edges]; and for a graph, exporting the store that
    Import built from an export gives the same text again. *)
Theorem export_parses_and_reexports g :
  well_formed (nodes g) = true ->
  well_formed (edges g) = true ->
  JSON_parse (handleExport g) = Ok (VObj [("nodes", nodes g); ("edges", edges g)]) /\
  (truthy (Some (nodes g)) = true -> truthy (Some (edges g)) = true ->
   forall st, handleExport (onload (handleExport g) st) = handleExport g).
Proof.
  intros Wn We. pose proof (JSON_parse_export g Wn We) as Hp.
  split; [exact Hp|].
  intros Tn Te st. unfold onload. rewrite Hp. cbn [bind prop assoc].
  simpl String.eqb. cbv iota. rewrite Tn. cbn [bind]. rewrite Te.
  reflexivity.
Qed.

Lemma export_parses_and_reexports_witness :
  well_formed (nodes sample_state) = true /\
  well_formed (edges sample_state) = true /\
  JSON_parse (handleExport sample_state) =
    Ok (VObj [("nodes", nodes sample_state); ("edges", edges sample_state)]) /\
  (truthy (Some (nodes sample_state)) = true ->
   truthy (Some (edges sample_state)) = true ->
   forall st,
     handleExport (onload (handleExport sample_state) st) =
     handleExport sample_state).
Proof.
  split; [reflexivity|]. split; [reflexivity|].
  apply (export_parses_and_reexports sample_state); reflexivity.
Defined.

(** ** A store that is no array *)

(** X6.  Nothing checks that the store holds arrays.  When the nodes are
    not an array, AutoArrange, Delete and Save in edit mode throw a
    TypeError ([map] and [filter] are no functions there), and Save of a
    new node throws unless the nodes are a string. *)
Theorem handlers_throw_on_non_array uuid i l d st :
  (forall ns, nodes st <> VArr ns) ->
  autoArrange st = Throw TypeError /\
  DeleteNode i st = Throw TypeError /\
  (all_white_space l = false ->
   UpdateNode uuid i l d st = Throw TypeError /\
   ((forall s, nodes st <> VStr s) -> AddNode uuid l d st = Throw TypeError)).
Proof.
  intros H. repeat split.
  - unfold autoArrange, array_map.
    destruct (nodes st) as [| | | |ns|]; try reflexivity. now destruct (H ns).
  - unfold DeleteNode, handleDeleteNode, array_filter. simpl.
    destruct (nodes st) as [| | | |ns|]; try reflexivity. now destruct (H ns).
  - unfold UpdateNode, handleSaveNode. rewrite blank_label_test. simpl.
    rewrite H0. simpl. unfold array_map.
    destruct (nodes st) as [| | | |ns|]; try reflexivity. now destruct (H ns).
  - intros Hs. unfold AddNode, handleSaveNode. rewrite blank_label_test.
    simpl. rewrite H0. simpl.
    destruct (nodes st) as [| | |s|ns|]; try reflexivity.
    + now destruct (Hs s).
    + now destruct (H ns).
Qed.

Lemma handlers_throw_on_non_array_witness :
  (forall ns, nodes (onload untyped_document sample_state) <> VArr ns) /\
  autoArrange (onload untyped_document sample_state) = Throw TypeError /\
  DeleteNode "1" (onload untyped_document sample_state) = Throw TypeError /\
  (all_white_space "B" = false ->
   UpdateNode "u" "1" "B" "" (onload untyped_document sample_state) =
     Throw TypeError /\
   ((forall s, nodes (onload untyped_document sample_state) <> VStr s) ->
    AddNode "u" "B" "" (onload untyped_document sample_state) =
      Throw TypeError)).
Proof.
  assert (H : forall ns, nodes (onload untyped_document sample_state) <> VArr ns)
    by (intros ns; discriminate).
  split; [exact H|].
  exact (handlers_throw_on_non_array "u" "1" "B" "" _ H).
Defined.

(** ** The form and Save *)

(** X7.  The two form fields are independent: typing in them in either
    order gives the same state, and typing changes nothing but the text of
    its own field.  Save after the Add button and typing is [AddNode];
    Save after a click on a node and typing is [UpdateNode]. *)
Theorem form_typing_composes l d st :
  onChangeDescription d (onChangeLabel l st) =
    onChangeLabel l (onChangeDescription d st) /\
  nodes (onChangeLabel l st) = nodes st /\
  edges (onChangeLabel l st) = edges st /\
  session (onChangeLabel l st) = session st /\
  error (onChangeLabel l st) = error st /\
  id (currentNode (onChangeLabel l st)) = id (currentNode st) /\
  description (currentNode (onChangeLabel l st)) = description (currentNode st) /\
  (forall uuid,
      handleSaveNode uuid
        (onChangeDescription d (onChangeLabel l (handleAddNode st))) =
      AddNode uuid l d st) /\
  (forall uuid node st1,
      handleNodeClick node st = Some st1 ->
      handleSaveNode uuid (onChangeDescription d (onChangeLabel l st1)) =
      UpdateNode uuid (id (currentNode st1)) l d st).
Proof.
  repeat split.
  intros uuid node st1 Hc. unfold handleNodeClick in Hc.
  destruct node as [| | | | |fs]; try discriminate.
  destruct (assoc "id" fs) as [[| | |i| |]|]; try discriminate.
  destruct (assoc "data" fs) as [[| | | | |dt]|]; try discriminate.
  destruct (string_or_empty (assoc "label" dt)); try discriminate.
  destruct (string_or_empty (assoc "description" dt)); try discriminate.
  now injection Hc as <-.
Qed.

Lemma handleSaveNode_records uuid st ns :
  nodes st = VArr ns ->
  forallb is_record ns = true ->
  all_white_space (label (currentNode st)) = false ->
  handleSaveNode uuid st =
  Ok (setShowModal false
        (setNodes
           (VArr (if isEditMode st
                  then map_idx (updated (currentNode st)) 0 ns
                  else ns ++ [new_node uuid (Z.of_nat (List.length ns))
                                (currentNode st)]))
           (setError "" st))).
Proof.
  intros Hn Rn Hl. unfold handleSaveNode.
  rewrite blank_label_test, Hl. simpl.
  destruct (isEditMode st); rewrite Hn; simpl; [|reflexivity].
  rewrite (map_from_ok _ (updated (currentNode st))); [reflexivity|].
  intros x j Hx. apply update_node_record. exact (forallb_In _ _ _ Rn Hx).
Qed.

Lemma set_prop_same k v fs : assoc k fs = Some v -> set_prop k v fs = fs.
Proof.
  induction fs as [|[k' v'] fs IH]; simpl; [discriminate|].
  destruct (String.eqb_spec k k') as [->|Hne].
  - now intros [= ->].
  - intros H. now rewrite IH.
Qed.

Lemma set_prop_overwrite k v w fs :
  set_prop k w (set_prop k v fs) = set_prop k w fs.
Proof.
  induction fs as [|[k' v'] fs IH]; simpl.
  - now rewrite String.eqb_refl.
  - destruct (String.eqb k k') eqn:E; simpl.
    + now rewrite String.eqb_refl.
    + now rewrite E, IH.
Qed.

Lemma map_idx_same {A} (g : A -> nat -> A) l :
  (forall x j, In x l -> g x j = x) -> forall i, map_idx g i l = l.
Proof.
  induction l as [|x xs IH]; intros H i; simpl; [reflexivity|].
  rewrite (H x i (or_introl eq_refl)), IH; [reflexivity|].
  intros y j Hy. apply H. now right.
Qed.

(** X9.  Opening a node and saving it untouched changes no node and no
    edge, provided the node's [data] holds exactly its label and
    description, the label is not blank, and no other node has its id. *)
Theorem edit_and_save_untouched uuid st ns es fs i l d :
  is_graph st ns es ->
  In (VObj fs) ns ->
  assoc "id" fs = Some (VStr i) ->
  assoc "data" fs = Some (VObj [("label", VStr l); ("description", VStr d)]) ->
  all_white_space l = false ->
  (forall m, In m ns -> has_id i m = true -> m = VObj fs) ->
  exists st1 st2,
    handleNodeClick (VObj fs) st = Some st1 /\
    handleSaveNode uuid st1 = Ok st2 /\
    nodes st2 = nodes st /\
    edges st2 = edges st /\
    session st2 = Closed.
Proof.
  intros G Hin Hi Hd Hl Hu.
  exists (editing i l d st). eexists.
  split. { unfold handleNodeClick. now rewrite Hi, Hd. }
  split. { apply (UpdateNode_graph uuid i l d st ns es G Hl). }
  destruct G as (Hn & He & Rn & Re). simpl. repeat split.
  rewrite Hn. f_equal. apply map_idx_same.
  intros x j Hx. unfold updated. simpl.
  destruct (has_id i x) eqn:Ex; [|reflexivity].
  rewrite (Hu x Hx Ex). simpl. f_equal. now apply set_prop_same.
Qed.

Lemma edit_and_save_untouched_witness :
  exists fs,
    is_graph sample_state two_nodes one_edge /\
    In (VObj fs) two_nodes /\
    assoc "id" fs = Some (VStr "b7") /\
    assoc "data" fs = Some (VObj [("label", VStr "B"); ("description", VStr "")]) /\
    all_white_space "B" = false /\
    (forall m, In m two_nodes -> has_id "b7" m = true -> m = VObj fs) /\
    exists st1 st2,
      handleNodeClick (VObj fs) sample_state = Some st1 /\
      handleSaveNode "u" st1 = Ok st2 /\
      nodes st2 = nodes sample_state /\
      edges st2 = edges sample_state /\
      session st2 = Closed.
Proof.
  eexists.
  assert (Hin : In (VObj [("id", VStr "b7");
                          ("position", VObj [("x", VNum 150); ("y", VNum 170)]);
                          ("data", VObj [("label", VStr "B");
                                         ("description", VStr "")])])
                   two_nodes) by (right; left; reflexivity).
  assert (Hu : forall m, In m two_nodes -> has_id "b7" m = true ->
               m = VObj [("id", VStr "b7");
                         ("position", VObj [("x", VNum 150); ("y", VNum 170)]);
                         ("data", VObj [("label", VStr "B");
                                        ("description", VStr "")])]).
  { intros m [<-|[<-|[]]] H; [discriminate H|reflexivity]. }
  split; [exact sample_state_is_graph|]. split; [exact Hin|].
  split; [reflexivity|]. split; [reflexivity|]. split; [reflexivity|].
  split; [exact Hu|].
  exact (edit_and_save_untouched "u" sample_state two_nodes one_edge _
           "b7" "B" "" sample_state_is_graph Hin eq_refl eq_refl eq_refl Hu).
Defined.

(** The seed node has no description; saving it untouched gives it the
    empty one. *)
Lemma edit_and_save_seed :
  exists st1 st2 seed,
    nodes initial_state = VArr [seed] /\
    handleNodeClick seed initial_state = Some st1 /\
    handleSaveNode "u" st1 = Ok st2 /\
    nodes st2 <> nodes initial_state /\
    nodes st2 =
      VArr [VObj [("id", VStr "1");
                  ("type", VStr "default");
                  ("position", VObj [("x", VNum 100); ("y", VNum 100)]);
                  ("data", VObj [("label", VStr "Start");
                                 ("description", VStr "")])]].
Proof.
  do 3 eexists. split; [reflexivity|]. split; [reflexivity|].
  split; [reflexivity|]. split; [discriminate|reflexivity].
Qed.

Lemma has_id_updated c x j : has_id (id c) (updated c x j) = has_id (id c) x.
Proof.
  unfold updated. destruct (has_id (id c) x) eqn:E; [|exact E].
  destruct x; try discriminate. simpl in *.
  now rewrite assoc_set_prop_other by discriminate.
Qed.

Lemma map_idx_updated_twice c1 c2 ns :
  id c1 = id c2 ->
  forall k,
    map_idx (updated c2) k (map_idx (updated c1) k ns) =
    map_idx (updated c2) k ns.
Proof.
  intros Hid. induction ns as [|x xs IH]; intros k; simpl; [reflexivity|].
  rewrite IH. f_equal.
  unfold updated at 1. rewrite <- Hid, has_id_updated.
  unfold updated. rewrite <- Hid.
  destruct (has_id (id c1) x) eqn:E; [|reflexivity].
  destruct x; try discriminate. simpl. now rewrite set_prop_overwrite.
Qed.

(** X10.  Of two updates of the same id the later one decides: Update
    after Update gives the state that the second Update alone gives.  In
    particular the same Update twice is that Update once. *)
Theorem update_last_wins uuid i l1 d1 l2 d2 st ns es :
  is_graph st ns es ->
  all_white_space l1 = false ->
  all_white_space l2 = false ->
  exists a b,
    UpdateNode uuid i l1 d1 st = Ok a /\
    UpdateNode uuid i l2 d2 a = Ok b /\
    UpdateNode uuid i l2 d2 st = Ok b.
Proof.
  intros G H1 H2. pose proof G as (Hn & He & Rn & Re).
  set (c1 := {| id := i; label := l1; description := d1 |}).
  set (c2 := {| id := i; label := l2; description := d2 |}).
  assert (Ra : forallb is_record (map_idx (updated c1) 0 ns) = true).
  { apply forallb_map_idx. intros x j Hx.
    pose proof (forallb_In _ _ _ Rn Hx) as Rx. unfold updated.
    now destruct (has_id (id c1) x). }
  rewrite (UpdateNode_graph uuid i l1 d1 st ns es G H1).
  do 2 eexists. split; [reflexivity|].
  rewrite (UpdateNode_graph uuid i l2 d2 st ns es G H2).
  erewrite (UpdateNode_graph uuid i l2 d2 _ _ es); [|repeat split; eauto|exact H2].
  split; [reflexivity|]. fold c1 c2. simpl.
  now rewrite (map_idx_updated_twice c1 c2 ns eq_refl).
Qed.

Lemma update_last_wins_witness :
  is_graph sample_state two_nodes one_edge /\
  all_white_space "First" = false /\
  all_white_space "Second" = false /\
  exists a b,
    UpdateNode "u" "1" "First" "x" sample_state = Ok a /\
    UpdateNode "u" "1" "Second" "y" a = Ok b /\
    UpdateNode "u" "1" "Second" "y" sample_state = Ok b.
Proof.
  split; [exact sample_state_is_graph|]. split; [reflexivity|].
  split; [reflexivity|].
  exact (update_last_wins "u" "1" "First" "x" "Second" "y" sample_state
           two_nodes one_edge sample_state_is_graph eq_refl eq_refl).
Defined.

(** ** Ids and referential integrity under Save and AutoArrange *)

Lemma node_ids_app a b : node_ids (a ++ b) = (node_ids a ++ node_ids b)%list.
Proof.
  induction a as [|x a IH]; simpl; [reflexivity|].
  destruct x as [| | | | |fs]; try exact IH.
  destruct (assoc "id" fs) as [[| | |i| |]|]; try exact IH.
  simpl. now rewrite IH.
Qed.

Lemma node_ids_map_idx (g : value -> nat -> value) l :
  (forall x j, In x l -> node_ids [g x j] = node_ids [x]) ->
  forall i, node_ids (map_idx g i l) = node_ids l.
Proof.
  induction l as [|x xs IH]; intros H i; simpl map_idx; [reflexivity|].
  change (g x i :: map_idx g (S i) xs)
    with ([g x i] ++ map_idx g (S i) xs)%list.
  change (x :: xs) with ([x] ++ xs)%list.
  rewrite !node_ids_app, (H x i (or_introl eq_refl)), IH; [reflexivity|].
  intros y j Hy. apply H. now right.
Qed.

Lemma node_ids_updated c x j : node_ids [updated c x j] = node_ids [x].
Proof.
  unfold updated. destruct (has_id (id c) x) eqn:E; [|reflexivity].
  destruct x; try discriminate. simpl.
  now rewrite assoc_set_prop_other by discriminate.
Qed.

Lemma node_ids_arranged fs j : node_ids [arranged (VObj fs) j] = node_ids [VObj fs].
Proof.
  unfold arranged. simpl.
  now rewrite assoc_set_prop_other by discriminate.
Qed.

Lemma has_id_node_ids s ns :
  existsb (has_id s) ns = existsb (fun i => String.eqb i s) (node_ids ns).
Proof.
  induction ns as [|x ns IH]; simpl; [reflexivity|].
  destruct x as [| | | | |fs]; try exact IH. simpl.
  destruct (assoc "id" fs) as [[| | |i| |]|]; try exact IH.
  simpl. now rewrite IH.
Qed.

Lemma node_ids_filter i ns :
  node_ids (filter (fun n => negb (has_id i n)) ns) =
  filter (fun s => negb (String.eqb s i)) (node_ids ns).
Proof.
  induction ns as [|x ns IH]; simpl; [reflexivity|].
  destruct x as [| | | | |fs]; try exact IH. simpl.
  destruct (assoc "id" fs) as [[| | |s| |]|] eqn:E; simpl; rewrite ?E; try exact IH.
  destruct (String.eqb s i); simpl; rewrite ?E; [exact IH|now rewrite IH].
Qed.

Lemma distinct_filter (p : string -> bool) ks :
  distinct ks = true -> distinct (filter p ks) = true.
Proof.
  induction ks as [|k ks IH]; simpl; [reflexivity|].
  intros H. apply andb_prop in H as [Hk Hks].
  destruct (p k); simpl; [|auto].
  rewrite IH by assumption. rewrite andb_true_r.
  apply negb_true_iff in Hk. apply negb_true_iff.
  destruct (existsb (String.eqb k) (filter p ks)) eqn:E; [|reflexivity].
  apply existsb_exists in E as (y & Hy & Ey).
  apply filter_In in Hy as [Hy _].
  assert (existsb (String.eqb k) ks = true); [|congruence].
  apply existsb_exists. eauto.
Qed.

(** An edge that is sound for [ns] is sound for any nodes with the same
    ids, or more. *)
Lemma no_dangling_more_ids ns ns' es :
  (forall s, existsb (has_id s) ns = true -> existsb (has_id s) ns' = true) ->
  no_dangling ns es = true -> no_dangling ns' es = true.
Proof.
  intros H. unfold no_dangling. induction es as [|e es IH]; simpl; [reflexivity|].
  intros D. apply andb_prop in D as [De Des]. rewrite IH by assumption.
  rewrite andb_true_r. destruct e; try discriminate. simpl in *.
  destruct (assoc "source" fs) as [[| | |s| |]|]; try discriminate.
  destruct (assoc "target" fs) as [[| | |t| |]|]; try discriminate.
  apply andb_prop in De as [Hs Ht]. now rewrite (H s Hs), (H t Ht).
Qed.

Lemma existsb_has_id_same_ids ns ns' :
  node_ids ns' = node_ids ns ->
  forall s, existsb (has_id s) ns = true -> existsb (has_id s) ns' = true.
Proof.
  intros E s. now rewrite !has_id_node_ids, E.
Qed.

(** What happens to the list of ids. *)
Lemma ids_after_handlers uuid i l d st ns es :
  is_graph st ns es ->
  all_white_space l = false ->
  (exists ns', AddNode uuid l d st =
                 Ok (setShowModal false
                       (setNodes (VArr ns') (setError "" (adding l d st)))) /\
               forallb is_record ns' = true /\
               node_ids ns' = (node_ids ns ++ [uuid])%list) /\
  (exists ns', UpdateNode uuid i l d st =
                 Ok (setShowModal false
                       (setNodes (VArr ns') (editing i l d st))) /\
               forallb is_record ns' = true /\
               node_ids ns' = node_ids ns) /\
  (exists ns', autoArrange st = Ok (setNodes (VArr ns') st) /\
               forallb is_record ns' = true /\
               node_ids ns' = node_ids ns).
Proof.
  intros G Hl. pose proof G as (Hn & He & Rn & Re). repeat split.
  - rewrite (AddNode_array uuid l d st ns Hn Hl).
    eexists. split; [reflexivity|]. split.
    + rewrite forallb_app, Rn. reflexivity.
    + rewrite node_ids_app. reflexivity.
  - rewrite (UpdateNode_graph uuid i l d st ns es G Hl).
    eexists. split; [reflexivity|]. split.
    + apply forallb_map_idx. intros x j Hx.
      pose proof (forallb_In _ _ _ Rn Hx) as Rx. unfold updated.
      now destruct (has_id _ x).
    + apply node_ids_map_idx. intros x j _. apply node_ids_updated.
  - rewrite (autoArrange_array st ns Hn).
    eexists. split; [reflexivity|]. split.
    + apply forallb_map_idx. reflexivity.
    + apply node_ids_map_idx. intros x j Hx.
      pose proof (forallb_In _ _ _ Rn Hx) as Rx.
      destruct x; try discriminate. apply node_ids_arranged.
Qed.

(** X11.  Save and AutoArrange keep a graph a graph and keep its edges
    sound: after AddNode, UpdateNode or AutoArrange on a graph whose edges
    reference existing nodes, the store is again a graph with the same
    edges, all of which reference existing nodes. *)
Theorem save_and_arrange_keep_integrity uuid i l d st ns es :
  is_graph st ns es ->
  no_dangling ns es = true ->
  all_white_space l = false ->
  forall st',
    AddNode uuid l d st = Ok st' \/ UpdateNode uuid i l d st = Ok st' \/
    autoArrange st = Ok st' ->
    exists ns',
      is_graph st' ns' es /\ no_dangling ns' es = true.
Proof.
  intros G D Hl st' H. pose proof G as (Hn & He & Rn & Re).
  destruct (ids_after_handlers uuid i l d st ns es G Hl)
    as ((na & Ea & Ra & Ia) & (nu & Eu & Ru & Iu) & (nr & Er & Rr & Ir)).
  destruct H as [H|[H|H]].
  - rewrite Ea in H. injection H as <-. exists na.
    split; [repeat split; assumption|].
    apply (no_dangling_more_ids ns); [|assumption].
    intros s. rewrite !has_id_node_ids, Ia, existsb_app.
    intros ->. reflexivity.
  - rewrite Eu in H. injection H as <-. exists nu.
    split; [repeat split; assumption|].
    apply (no_dangling_more_ids ns); [|assumption].
    now apply existsb_has_id_same_ids.
  - rewrite Er in H. injection H as <-. exists nr.
    split; [repeat split; assumption|].
    apply (no_dangling_more_ids ns); [|assumption].
    now apply existsb_has_id_same_ids.
Qed.

Lemma save_and_arrange_keep_integrity_witness :
  is_graph sample_state two_nodes one_edge /\
  no_dangling two_nodes one_edge = true /\
  all_white_space "C" = false /\
  forall st',
    AddNode "c9" "C" "" sample_state = Ok st' \/
    UpdateNode "c9" "1" "C" "" sample_state = Ok st' \/
    autoArrange sample_state = Ok st' ->
    exists ns',
      is_graph st' ns' one_edge /\ no_dangling ns' one_edge = true.
Proof.
  split; [exact sample_state_is_graph|]. split; [reflexivity|].
  split; [reflexivity|].
  exact (save_and_arrange_keep_integrity "c9" "1" "C" "" sample_state
           two_nodes one_edge sample_state_is_graph eq_refl eq_refl).
Defined.

(** X12.  Unique ids are an invariant of the four store operations, as
    long as the id of a new node is fresh: UpdateNode and AutoArrange keep
    the list of ids, DeleteNode removes one from it, AddNode appends the
    new one.  AddNode itself does not look at the ids: with an id that a
    node already has, the ids are no longer unique. *)
Theorem unique_ids_invariant uuid i l d st ns es :
  is_graph st ns es ->
  distinct (node_ids ns) = true ->
  all_white_space l = false ->
  (forall st' ns',
      UpdateNode uuid i l d st = Ok st' \/ DeleteNode i st = Ok st' \/
      autoArrange st = Ok st' ->
      nodes st' = VArr ns' -> distinct (node_ids ns') = true) /\
  (forall st' ns',
      AddNode uuid l d st = Ok st' -> nodes st' = VArr ns' ->
      distinct (node_ids ns') = negb (existsb (has_id uuid) ns)).
Proof.
  intros G U Hl. pose proof G as (Hn & He & Rn & Re).
  destruct (ids_after_handlers uuid i l d st ns es G Hl)
    as ((na & Ea & Ra & Ia) & (nu & Eu & Ru & Iu) & (nr & Er & Rr & Ir)).
  split.
  - intros st' ns' [H|[H|H]] Hn'.
    + rewrite Eu in H. injection H as <-. simpl in Hn'.
      injection Hn' as <-. now rewrite Iu.
    + rewrite (DeleteNode_graph i st ns es G) in H. injection H as <-.
      simpl in Hn'. injection Hn' as <-.
      rewrite node_ids_filter. now apply distinct_filter.
    + rewrite Er in H. injection H as <-. simpl in Hn'.
      injection Hn' as <-. now rewrite Ir.
  - intros st' ns' H Hn'. rewrite Ea in H. injection H as <-.
    simpl in Hn'. injection Hn' as <-. rewrite Ia, has_id_node_ids.
    clear - U. induction (node_ids ns) as [|k ks IH]; [reflexivity|].
    simpl in U |- *. apply andb_prop in U as [Hk Hks].
    rewrite existsb_app. simpl. rewrite orb_false_r.
    apply negb_true_iff in Hk. rewrite Hk. simpl.
    rewrite IH by assumption.
    rewrite (String.eqb_sym k uuid).
    destruct (String.eqb uuid k); simpl; [reflexivity|].
    now destruct (existsb _ ks).
Qed.

Lemma unique_ids_invariant_witness :
  is_graph sample_state two_nodes one_edge /\
  distinct (node_ids two_nodes) = true /\
  all_white_space "C" = false /\
  (forall st' ns',
      UpdateNode "c9" "1" "C" "" sample_state = Ok st' \/
      DeleteNode "1" sample_state = Ok st' \/
      autoArrange sample_state = Ok st' ->
      nodes st' = VArr ns' -> distinct (node_ids ns') = true) /\
  (forall st' ns',
      AddNode "c9" "C" "" sample_state = Ok st' -> nodes st' = VArr ns' ->
      distinct (node_ids ns') = negb (existsb (has_id "c9") two_nodes)).
Proof.
  split; [exact sample_state_is_graph|]. split; [reflexivity|].
  split; [reflexivity|].
  exact (unique_ids_invariant "c9" "1" "C" "" sample_state two_nodes one_edge
           sample_state_is_graph eq_refl eq_refl).
Defined.

(** ** Positions *)

(** X13.  Two nodes added one after the other are placed [70] apart, on a
    store that has a node; on the empty store both are placed at
    [x = 150, y = 170], one on top of the other. *)
Theorem add_twice_positions u1 l1 d1 u2 l2 d2 st ns :
  nodes st = VArr ns ->
  all_white_space l1 = false ->
  all_white_space l2 = false ->
  exists st1 st2 n1 n2,
    AddNode u1 l1 d1 st = Ok st1 /\
    AddNode u2 l2 d2 st1 = Ok st2 /\
    nodes st2 = VArr (ns ++ [n1; n2]) /\
    prop n1 "position" = Ok (Some (new_position (List.length ns))) /\
    prop n2 "position" = Ok (Some (new_position (S (List.length ns)))) /\
    (ns = [] -> prop n1 "position" = prop n2 "position") /\
    (ns <> [] -> prop n1 "position" <> prop n2 "position").
Proof.
  intros Hn H1 H2.
  rewrite (AddNode_array u1 l1 d1 st ns Hn H1).
  do 4 eexists. split; [reflexivity|].
  split. { apply AddNode_array; [reflexivity|exact H2]. }
  split. { now rewrite <- app_assoc. }
  unfold new_node, new_position. cbn [prop assoc].
  simpl String.eqb. cbv iota.
  rewrite length_app. simpl List.length.
  rewrite !length_or_one_max.
  replace (List.length ns + 1)%nat with (S (List.length ns)) by lia.
  repeat split.
  - intros ->. reflexivity.
  - intros Hne E. injection E as E. destruct ns; [congruence|].
    simpl List.length in E. lia.
Qed.

Lemma add_twice_positions_witness :
  nodes initial_state = VArr [VObj [("id", VStr "1");
                                    ("type", VStr "default");
                                    ("position", VObj [("x", VNum 100); ("y", VNum 100)]);
                                    ("data", VObj [("label", VStr "Start")])]] /\
  all_white_space "B" = false /\
  all_white_space "C" = false /\
  exists st1 st2 n1 n2,
    AddNode "b7" "B" "" initial_state = Ok st1 /\
    AddNode "c9" "C" "" st1 = Ok st2 /\
    nodes st2 =
      VArr ([VObj [("id", VStr "1");
                   ("type", VStr "default");
                   ("position", VObj [("x", VNum 100); ("y", VNum 100)]);
                   ("data", VObj [("label", VStr "Start")])]] ++ [n1; n2]) /\
    prop n1 "position" = Ok (Some (new_position 1)) /\
    prop n2 "position" = Ok (Some (new_position 2)) /\
    ([VObj [("id", VStr "1");
            ("type", VStr "default");
            ("position", VObj [("x", VNum 100); ("y", VNum 100)]);
            ("data", VObj [("label", VStr "Start")])]] = [] ->
     prop n1 "position" = prop n2 "position") /\
    ([VObj [("id", VStr "1");
            ("type", VStr "default");
            ("position", VObj [("x", VNum 100); ("y", VNum 100)]);
            ("data", VObj [("label", VStr "Start")])]] <> [] ->
     prop n1 "position" <> prop n2 "position").
Proof.
  split; [reflexivity|]. split; [reflexivity|]. split; [reflexivity|].
  exact (add_twice_positions "b7" "B" "" "c9" "C" "" initial_state _
           eq_refl eq_refl eq_refl).
Defined.

Lemma map_idx_nth_error_inv {A B} (g : A -> nat -> B) l :
  forall i k y,
    nth_error (map_idx g i l) k = Some y ->
    exists x, nth_error l k = Some x /\ y = g x (i + k)%nat.
Proof.
  induction l as [|x xs IH]; intros i k y H.
  - destruct k; discriminate.
  - destruct k as [|k]; simpl in *.
    + injection H as <-. exists x. now rewrite Nat.add_0_r.
    + destruct (IH (S i) k y H) as (x' & Hx & ->).
      exists x'. split; [assumption|]. f_equal. lia.
Qed.

(** X14.  After AutoArrange no two nodes share a position: nodes at
    different places of the list have different positions. *)
Theorem auto_arrange_no_overlap st ns :
  nodes st = VArr ns ->
  exists ns',
    autoArrange st = Ok (setNodes (VArr ns') st) /\
    forall j k nj nk,
      nth_error ns' j = Some nj ->
      nth_error ns' k = Some nk ->
      prop nj "position" = prop nk "position" ->
      j = k.
Proof.
  intros Hn. rewrite (autoArrange_array st ns Hn).
  eexists. split; [reflexivity|].
  intros j k nj nk Hj Hk E.
  apply map_idx_nth_error_inv in Hj as (xj & _ & ->).
  apply map_idx_nth_error_inv in Hk as (xk & _ & ->).
  unfold arranged in E. cbn [prop] in E.
  rewrite !assoc_set_prop_same in E. injection E as E.
  unfold yStart, yGap in E. lia.
Qed.

Lemma auto_arrange_no_overlap_witness :
  nodes sample_state = VArr two_nodes /\
  exists ns',
    autoArrange sample_state = Ok (setNodes (VArr ns') sample_state) /\
    forall j k nj nk,
      nth_error ns' j = Some nj ->
      nth_error ns' k = Some nk ->
      prop nj "position" = prop nk "position" ->
      j = k.
Proof.
  split; [reflexivity|].
  exact (auto_arrange_no_overlap sample_state two_nodes eq_refl).
Defined.

(** ** Delete *)

Lemma filter_twice {A} (p : A -> bool) l : filter p (filter p l) = filter p l.
Proof.
  induction l as [|x l IH]; simpl; [reflexivity|].
  destruct (p x) eqn:E; simpl; [now rewrite E, IH|exact IH].
Qed.

Lemma filter_swap {A} (p q : A -> bool) l :
  filter p (filter q l) = filter q (filter p l).
Proof.
  induction l as [|x l IH]; simpl; [reflexivity|].
  destruct (q x) eqn:Eq, (p x) eqn:Ep; simpl; rewrite ?Eq, ?Ep, IH; reflexivity.
Qed.

Lemma DeleteNodes_two i j st ns es :
  is_graph st ns es ->
  exists st',
    DeleteNodes [i; j] st = Ok st' /\
    nodes st' =
      VArr (filter (fun n => negb (has_id j n))
              (filter (fun n => negb (has_id i n)) ns)) /\
    edges st' =
      VArr (filter (fun e => negb (edge_mentions j e))
              (filter (fun e => negb (edge_mentions i e)) es)).
Proof.
  intros G. destruct (DeleteNode_is_graph i st ns es G) as (st1 & E1 & G1).
  simpl. rewrite E1. simpl.
  rewrite (DeleteNode_graph j st1 _ _ G1). simpl.
  eexists. split; [reflexivity|]. split; reflexivity.
Qed.

(** X15.  On a graph the order of two deletions does not matter for the
    store, and deleting the same id twice is deleting it once. *)
Theorem delete_commutes i j st ns es :
  is_graph st ns es ->
  exists a b c,
    DeleteNodes [i; j] st = Ok a /\
    DeleteNodes [j; i] st = Ok b /\
    nodes a = nodes b /\ edges a = edges b /\
    DeleteNode i st = Ok c /\
    (i = j -> nodes a = nodes c /\ edges a = edges c).
Proof.
  intros G.
  destruct (DeleteNodes_two i j st ns es G) as (a & Ea & Na & Da).
  destruct (DeleteNodes_two j i st ns es G) as (b & Eb & Nb & Db).
  exists a, b. eexists.
  split; [exact Ea|]. split; [exact Eb|].
  split. { rewrite Na, Nb. f_equal. apply filter_swap. }
  split. { rewrite Da, Db. f_equal. apply filter_swap. }
  split. { apply (DeleteNode_graph i st ns es G). }
  intros <-. simpl. rewrite Na, Da, !filter_twice. split; reflexivity.
Qed.

Lemma delete_commutes_witness :
  is_graph sample_state two_nodes one_edge /\
  exists a b c,
    DeleteNodes ["1"; "b7"] sample_state = Ok a /\
    DeleteNodes ["b7"; "1"] sample_state = Ok b /\
    nodes a = nodes b /\ edges a = edges b /\
    DeleteNode "1" sample_state = Ok c /\
    ("1" = "b7" -> nodes a = nodes c /\ edges a = edges c).
Proof.
  split; [exact sample_state_is_graph|].
  exact (delete_commutes "1" "b7" sample_state two_nodes one_edge
           sample_state_is_graph).
Defined.

Lemma distinct_node_ids_tail x ns :
  distinct (node_ids (x :: ns)) = true -> distinct (node_ids ns) = true.
Proof.
  destruct x as [| | | | |fs]; simpl; auto.
  destruct (assoc "id" fs) as [[| | |s| |]|]; simpl; auto.
  intros H. now apply andb_prop in H as [_ H].
Qed.

Lemma has_id_absent_in_tail i x ns :
  distinct (node_ids (x :: ns)) = true ->
  has_id i x = true ->
  forallb (fun n => negb (has_id i n)) ns = true.
Proof.
  intros U E.
  destruct x as [| | | | |fs]; try discriminate. simpl in E, U.
  destruct (assoc "id" fs) as [[| | |s| |]|]; try discriminate.
  simpl in E, U. apply String.eqb_eq in E. subst s.
  apply andb_prop in U as [Hk _]. apply negb_true_iff in Hk.
  apply forallb_forall. intros y Hy. apply negb_true_iff.
  destruct (has_id i y) eqn:Ey; [|reflexivity].
  assert (existsb (String.eqb i) (node_ids ns) = true); [|congruence].
  assert (Hex : existsb (has_id i) ns = true)
    by (apply existsb_exists; eauto).
  rewrite has_id_node_ids in Hex.
  apply existsb_exists in Hex as (k & Hk' & Ek).
  apply existsb_exists. exists k. split; [assumption|].
  now rewrite String.eqb_sym.
Qed.

(** With unique ids the filter of Delete takes one node out of the list. *)
Lemma filter_takes_one i ns :
  distinct (node_ids ns) = true ->
  existsb (has_id i) ns = true ->
  exists pre n post,
    ns = (pre ++ n :: post)%list /\
    has_id i n = true /\
    filter (fun m => negb (has_id i m)) ns = (pre ++ post)%list.
Proof.
  induction ns as [|x ns IH]; [discriminate|].
  intros U H. pose proof (distinct_node_ids_tail x ns U) as Ut.
  destruct (has_id i x) eqn:E.
  - exists [], x, ns. split; [reflexivity|]. split; [exact E|].
    simpl. rewrite E. simpl. apply filter_unchanged.
    now apply (has_id_absent_in_tail i x ns).
  - simpl in H. rewrite E in H. simpl in H.
    destruct (IH Ut H) as (pre & n & post & -> & Hn & Hf).
    exists (x :: pre), n, post. split; [reflexivity|]. split; [exact Hn|].
    simpl. rewrite E. simpl. now rewrite Hf.
Qed.

(** X16.  On a graph with unique ids, deleting a node that is there takes
    exactly that node out of the list, leaving the others in their order,
    and removes exactly the edges whose source or target is its id: an
    edge is kept if and only if it was there and does not mention the id.
    The modal is closed. *)
Theorem delete_removes_one i st ns es :
  is_graph st ns es ->
  distinct (node_ids ns) = true ->
  existsb (has_id i) ns = true ->
  exists st' pre n post es',
    DeleteNode i st = Ok st' /\
    ns = (pre ++ n :: post)%list /\
    has_id i n = true /\
    nodes st' = VArr (pre ++ post) /\
    (forall m, In m (pre ++ post) -> has_id i m = false) /\
    S (List.length (pre ++ post)) = List.length ns /\
    edges st' = VArr es' /\
    es' = filter (fun e => negb (edge_mentions i e)) es /\
    (forall e, In e es' <-> In e es /\ edge_mentions i e = false) /\
    session st' = Closed.
Proof.
  intros G U H. rewrite (DeleteNode_graph i st ns es G).
  destruct (filter_takes_one i ns U H) as (pre & n & post & E & Hn & Hf).
  eexists. exists pre, n, post. eexists.
  split; [reflexivity|]. simpl.
  split; [exact E|]. split; [exact Hn|].
  split; [now rewrite Hf|]. split.
  { intros m Hm. rewrite <- Hf in Hm. apply filter_In in Hm as [_ Hm].
    now apply negb_true_iff in Hm. }
  split. { rewrite E, !length_app. simpl. lia. }
  split; [reflexivity|]. split; [reflexivity|]. split; [|reflexivity].
  intros e. rewrite filter_In. split; intros [H1 H2]; split; auto.
  - now apply negb_true_iff in H2.
  - now apply negb_true_iff.
Qed.

Lemma delete_removes_one_witness :
  is_graph sample_state two_nodes one_edge /\
  distinct (node_ids two_nodes) = true /\
  existsb (has_id "b7") two_nodes = true /\
  exists st' pre n post es',
    DeleteNode "b7" sample_state = Ok st' /\
    two_nodes = (pre ++ n :: post)%list /\
    has_id "b7" n = true /\
    nodes st' = VArr (pre ++ post) /\
    (forall m, In m (pre ++ post) -> has_id "b7" m = false) /\
    S (List.length (pre ++ post)) = List.length two_nodes /\
    edges st' = VArr es' /\
    es' = filter (fun e => negb (edge_mentions "b7" e)) one_edge /\
    (forall e, In e es' <-> In e one_edge /\ edge_mentions "b7" e = false) /\
    session st' = Closed.
Proof.
  split; [exact sample_state_is_graph|]. split; [reflexivity|].
  split; [reflexivity|].
  exact (delete_removes_one "b7" sample_state two_nodes one_edge
           sample_state_is_graph eq_refl eq_refl).
Defined.

(** On the sample graph: the node [b7] and the one edge, which ends at
    it, are gone. *)
Lemma sample_delete_b7 :
  exists st' seed,
    DeleteNode "b7" sample_state = Ok st' /\
    nodes initial_state = VArr [seed] /\
    nodes st' = VArr [seed] /\
    edges st' = VArr [].
Proof. do 2 eexists. repeat split. Qed.

(** X17.  Adding a node with a fresh id and deleting it again gives back
    the nodes and the edges of a graph whose edges reference existing
    nodes. *)
Theorem add_then_delete_restores uuid l d st ns es :
  is_graph st ns es ->
  no_dangling ns es = true ->
  existsb (has_id uuid) ns = false ->
  all_white_space l = false ->
  exists st1 st2,
    AddNode uuid l d st = Ok st1 /\
    DeleteNode uuid st1 = Ok st2 /\
    nodes st2 = nodes st /\
    edges st2 = edges st.
Proof.
  intros G D F Hl. pose proof G as (Hn & He & Rn & Re).
  rewrite (AddNode_array uuid l d st ns Hn Hl).
  do 2 eexists. split; [reflexivity|].
  split.
  { apply (DeleteNode_graph uuid _
             (ns ++ [new_node uuid (Z.of_nat (List.length ns))
                       {| id := ""; label := l; description := d |}]) es).
    repeat split; try assumption.
    rewrite forallb_app, Rn. reflexivity. }
  simpl. rewrite Hn, He. split; f_equal.
  - rewrite filter_app. simpl. rewrite String.eqb_refl. simpl.
    rewrite app_nil_r. apply filter_unchanged.
    clear - F. induction ns as [|x ns IH]; simpl in *; [reflexivity|].
    apply orb_false_elim in F as [-> F]. simpl. auto.
  - apply filter_unchanged. now apply (no_dangling_absent uuid ns es).
Qed.

Lemma add_then_delete_restores_witness :
  is_graph sample_state two_nodes one_edge /\
  no_dangling two_nodes one_edge = true /\
  existsb (has_id "c9") two_nodes = false /\
  all_white_space "C" = false /\
  exists st1 st2,
    AddNode "c9" "C" "" sample_state = Ok st1 /\
    DeleteNode "c9" st1 = Ok st2 /\
    nodes st2 = nodes sample_state /\
    edges st2 = edges sample_state.
Proof.
  split; [exact sample_state_is_graph|]. split; [reflexivity|].
  split; [reflexivity|]. split; [reflexivity|].
  exact (add_then_delete_restores "c9" "C" "" sample_state two_nodes one_edge
           sample_state_is_graph eq_refl eq_refl eq_refl).
Defined.

(** ** Typing and Cancel *)

Lemma typing_frame evs :
  forall st,
    nodes (typing evs st) = nodes st /\
    edges (typing evs st) = edges st /\
    showModal (typing evs st) = showModal st /\
    isEditMode (typing evs st) = isEditMode st /\
    error (typing evs st) = error st /\
    id (currentNode (typing evs st)) = id (currentNode st).
Proof.
  induction evs as [|e evs IH]; intros st; [repeat split|].
  destruct (IH (type_event st e)) as (H1 & H2 & H3 & H4 & H5 & H6).
  unfold typing in *. simpl. rewrite H1, H2, H3, H4, H5, H6.
  destruct e; repeat split.
Qed.

(** X18.  Typing and Cancel never change the store: after the Add button
    or a click on a node, any sequence of changes of the two fields
    followed by Cancel leaves the nodes and the edges as they were, with
    the modal closed; and what was typed is forgotten, since the next
    opening of the modal starts from the same form as if nothing had been
    typed. *)
Theorem typing_and_cancel_discard evs st0 st :
  st = handleAddNode st0 \/ (exists node, handleNodeClick node st0 = Some st) ->
  nodes (onHide (typing evs st)) = nodes st0 /\
  edges (onHide (typing evs st)) = edges st0 /\
  session (onHide (typing evs st)) = Closed /\
  handleAddNode (onHide (typing evs st)) = handleAddNode st0 /\
  (forall node,
      handleNodeClick node (onHide (typing evs st)) = handleNodeClick node st0).
Proof.
  intros H.
  assert (E : nodes st = nodes st0 /\ edges st = edges st0).
  { destruct H as [->|(node & Hc)]; [split; reflexivity|].
    unfold handleNodeClick in Hc.
    destruct node as [| | | | |fs]; try discriminate.
    destruct (assoc "id" fs) as [[| | |i| |]|]; try discriminate.
    destruct (assoc "data" fs) as [[| | | | |dt]|]; try discriminate.
    destruct (string_or_empty (assoc "label" dt)); try discriminate.
    destruct (string_or_empty (assoc "description" dt)); try discriminate.
    injection Hc as <-. split; reflexivity. }
  destruct E as [En Ee].
  destruct (typing_frame evs st) as (H1 & H2 & _).
  assert (Hadd : handleAddNode (onHide (typing evs st)) = handleAddNode st0).
  { unfold handleAddNode, onHide, setShowModal, setCurrentNode, setIsEditMode,
      setError. simpl. now rewrite H1, H2, En, Ee. }
  split; [simpl; congruence|]. split; [simpl; congruence|].
  split; [reflexivity|]. split; [exact Hadd|].
  intros node. unfold handleNodeClick.
  destruct node as [| | | | |fs]; try reflexivity.
  destruct (assoc "id" fs) as [[| | |i| |]|]; try reflexivity.
  destruct (assoc "data" fs) as [[| | | | |dt]|]; try reflexivity.
  destruct (string_or_empty (assoc "label" dt)); try reflexivity.
  destruct (string_or_empty (assoc "description" dt)); try reflexivity.
  f_equal. unfold onHide, setShowModal, setCurrentNode, setIsEditMode,
    setError. simpl. now rewrite H1, H2, En, Ee.
Qed.

Lemma typing_and_cancel_discard_witness :
  (handleAddNode sample_state = handleAddNode sample_state \/
   exists node, handleNodeClick node sample_state = Some (handleAddNode sample_state)) /\
  nodes (onHide (typing [TypeLabel "B"; TypeDescription "x"; TypeLabel ""]
                   (handleAddNode sample_state))) = nodes sample_state /\
  edges (onHide (typing [TypeLabel "B"; TypeDescription "x"; TypeLabel ""]
                   (handleAddNode sample_state))) = edges sample_state /\
  session (onHide (typing [TypeLabel "B"; TypeDescription "x"; TypeLabel ""]
                     (handleAddNode sample_state))) = Closed /\
  handleAddNode (onHide (typing [TypeLabel "B"; TypeDescription "x"; TypeLabel ""]
                           (handleAddNode sample_state))) =
    handleAddNode sample_state /\
  (forall node,
      handleNodeClick node
        (onHide (typing [TypeLabel "B"; TypeDescription "x"; TypeLabel ""]
                   (handleAddNode sample_state))) =
      handleNodeClick node sample_state).
Proof.
  split; [left; reflexivity|].
  exact (typing_and_cancel_discard
           [TypeLabel "B"; TypeDescription "x"; TypeLabel ""]
           sample_state (handleAddNode sample_state) (or_introl eq_refl)).
Defined.

(** ** A [null] among the nodes *)

Lemma filter_list_throws {A} (p : A -> result bool) l x :
  In x l ->
  p x = Throw TypeError ->
  (forall y, In y l -> p y = Throw TypeError \/ exists b, p y = Ok b) ->
  filter_list p l = Throw TypeError.
Proof.
  induction l as [|y l IH]; intros Hin Hx Hall; [destruct Hin|].
  simpl. destruct (Hall y (or_introl eq_refl)) as [->|(b & E)]; [reflexivity|].
  rewrite E. simpl. destruct Hin as [->|Hin]; [congruence|].
  rewrite IH; auto. intros z Hz. apply Hall. now right.
Qed.

Lemma map_from_throws {A B} (f : A -> nat -> result B) l x :
  In x l ->
  (forall j, f x j = Throw TypeError) ->
  (forall y j, In y l -> f y j = Throw TypeError \/ exists b, f y j = Ok b) ->
  forall i, map_from f i l = Throw TypeError.
Proof.
  induction l as [|y l IH]; intros Hin Hx Hall i; [destruct Hin|].
  simpl. destruct (Hall y i (or_introl eq_refl)) as [->|(b & E)]; [reflexivity|].
  rewrite E. simpl. destruct Hin as [->|Hin]; [rewrite Hx in E; discriminate|].
  rewrite IH; auto. intros z j Hz. apply Hall. now right.
Qed.

Lemma prop_throws_TypeError v k :
  prop v k = Throw TypeError \/ exists r, prop v k = Ok r.
Proof.
  destruct v; simpl; try (right; eexists; reflexivity); [now left| |];
    destruct (String.eqb k "length"); right; eexists; reflexivity.
Qed.

(** X19.  The handlers read [n.id] of every node without a guard.  With a
    [null] among the nodes (a file can put it there), Delete and Save in
    edit mode throw a TypeError; AutoArrange does not read [id], and
    completes, putting an object with the position alone in the place of
    the [null]. *)
Theorem null_node_throws uuid i l d st ns :
  nodes st = VArr ns ->
  In VNull ns ->
  DeleteNode i st = Throw TypeError /\
  (all_white_space l = false -> UpdateNode uuid i l d st = Throw TypeError) /\
  exists ns',
    autoArrange st = Ok (setNodes (VArr ns') st) /\
    forall k,
      nth_error ns k = Some VNull ->
      nth_error ns' k = Some (VObj [("position", arranged_position k)]).
Proof.
  intros Hn Hin. split; [|split].
  - unfold DeleteNode, handleDeleteNode, array_filter. simpl. rewrite Hn.
    rewrite (filter_list_throws _ ns VNull Hin); [reflexivity|reflexivity|].
    intros y _. unfold keep_node.
    destruct (prop_throws_TypeError y "id") as [->|(r & ->)];
      [now left|right; eexists; reflexivity].
  - intros Hl. unfold UpdateNode, handleSaveNode.
    rewrite blank_label_test. simpl. rewrite Hl, Hn. simpl.
    rewrite (map_from_throws _ ns VNull Hin); [reflexivity|reflexivity|].
    intros y j _. unfold update_node.
    destruct (prop_throws_TypeError y "id") as [->|(r & ->)]; [now left|].
    right. simpl. destruct (strict_eq_str r _); eexists; reflexivity.
  - rewrite (autoArrange_array st ns Hn). eexists. split; [reflexivity|].
    intros k Hk. now rewrite (map_idx_nth_error arranged ns 0 k VNull Hk).
Qed.

Lemma null_node_throws_witness :
  nodes (setNodes (VArr [VNull]) initial_state) = VArr [VNull] /\
  In VNull [VNull] /\
  DeleteNode "1" (setNodes (VArr [VNull]) initial_state) = Throw TypeError /\
  (all_white_space "B" = false ->
   UpdateNode "u" "1" "B" "" (setNodes (VArr [VNull]) initial_state) =
     Throw TypeError) /\
  exists ns',
    autoArrange (setNodes (VArr [VNull]) initial_state) =
      Ok (setNodes (VArr ns') (setNodes (VArr [VNull]) initial_state)) /\
    forall k,
      nth_error [VNull] k = Some VNull ->
      nth_error ns' k = Some (VObj [("position", arranged_position k)]).
Proof.
  split; [reflexivity|]. split; [left; reflexivity|].
  exact (null_node_throws "u" "1" "B" "" (setNodes (VArr [VNull]) initial_state)
           [VNull] eq_refl (or_introl eq_refl)).
Defined.

(** ** Save after the form was opened and filled *)

(** The states of the open form: the Add button or a click on a node
    record, then any typing. *)
Lemma opened_form_frame evs st0 st :
  st = typing evs (handleAddNode st0) \/
  (exists node st1, handleNodeClick node st0 = Some st1 /\ st = typing evs st1) ->
  nodes st = nodes st0 /\ edges st = edges st0 /\ showModal st = true.
Proof.
  intros [->|(node & st1 & Hc & ->)];
    destruct (typing_frame evs (handleAddNode st0)) as (H1 & H2 & H3 & _);
    [now rewrite H1, H2, H3|].
  destruct (typing_frame evs st1) as (K1 & K2 & K3 & _).
  rewrite K1, K2, K3. unfold handleNodeClick in Hc.
  destruct node as [| | | | |fs]; try discriminate.
  destruct (assoc "id" fs) as [[| | |i| |]|]; try discriminate.
  destruct (assoc "data" fs) as [[| | | | |dt]|]; try discriminate.
  destruct (string_or_empty (assoc "label" dt)); try discriminate.
  destruct (string_or_empty (assoc "description" dt)); try discriminate.
  injection Hc as <-. repeat split.
Qed.

(** X8.  Let the modal be opened by the Add button, or by a click on a
    node record whose label and description are strings or falsy, and let
    the user type anything in the two fields.  On a store of node objects
    Save then never throws.  It is refused (message "Label is required",
    modal still open) exactly when the label is blank; otherwise it closes
    the modal, clears the message, and changes nothing else but the nodes:
    the edges, the mode and the form (which is not emptied) stay, and the
    number of nodes grows by one when adding and stays when editing. *)
Theorem save_after_typing uuid evs st0 st ns :
  st = typing evs (handleAddNode st0) \/
  (exists node st1, handleNodeClick node st0 = Some st1 /\ st = typing evs st1) ->
  nodes st0 = VArr ns ->
  forallb is_record ns = true ->
  exists st',
    handleSaveNode uuid st = Ok st' /\
    (error st' = "Label is required" <->
     all_white_space (label (currentNode st)) = true) /\
    (all_white_space (label (currentNode st)) = true ->
     session st' = session st /\ showModal st' = true /\
     nodes st' = nodes st0 /\ edges st' = edges st0) /\
    (all_white_space (label (currentNode st)) = false ->
     session st' = Closed /\
     error st' = "" /\
     edges st' = edges st0 /\
     isEditMode st' = isEditMode st /\
     currentNode st' = currentNode st /\
     exists ns',
       nodes st' = VArr ns' /\
       List.length ns' =
         if isEditMode st then List.length ns else S (List.length ns)).
Proof.
  intros Hopen Hn0 Rn.
  destruct (opened_form_frame evs st0 st Hopen) as (En & Ee & Es).
  assert (Hn : nodes st = VArr ns) by congruence.
  destruct (all_white_space (label (currentNode st))) eqn:Hl.
  - rewrite (handleSaveNode_blank uuid st Hl). eexists. split; [reflexivity|].
    split; [now split|]. split; [|discriminate].
    intros _. simpl. repeat split; assumption.
  - rewrite (handleSaveNode_records uuid st ns Hn Rn Hl).
    eexists. split; [reflexivity|]. split; [split; discriminate|].
    split; [discriminate|].
    intros _. simpl. repeat split; [assumption|].
    eexists. split; [reflexivity|].
    destruct (isEditMode st).
    + apply map_idx_length.
    + rewrite length_app. simpl. lia.
Qed.

Lemma save_after_typing_witness :
  (typing [TypeLabel " B "; TypeDescription "x"] (handleAddNode sample_state) =
   typing [TypeLabel " B "; TypeDescription "x"] (handleAddNode sample_state) \/
   exists node st1,
     handleNodeClick node sample_state = Some st1 /\
     typing [TypeLabel " B "; TypeDescription "x"] (handleAddNode sample_state) =
     typing [TypeLabel " B "; TypeDescription "x"] st1) /\
  nodes sample_state = VArr two_nodes /\
  forallb is_record two_nodes = true /\
  all_white_space " B " = false /\
  exists st',
    handleSaveNode "u"
      (typing [TypeLabel " B "; TypeDescription "x"] (handleAddNode sample_state))
    = Ok st' /\
    session st' = Closed /\
    error st' = "" /\
    edges st' = edges sample_state /\
    exists ns', nodes st' = VArr ns' /\ List.length ns' = 3%nat.
Proof.
  split; [left; reflexivity|]. split; [reflexivity|]. split; [reflexivity|].
  split; [reflexivity|].
  destruct (save_after_typing "u" [TypeLabel " B "; TypeDescription "x"]
              sample_state
              (typing [TypeLabel " B "; TypeDescription "x"]
                 (handleAddNode sample_state))
              two_nodes (or_introl eq_refl) eq_refl eq_refl)
    as (st' & E & _ & _ & H).
  destruct (H eq_refl) as (H1 & H2 & H3 & _ & _ & ns' & H4 & H5).
  exists st'. split; [exact E|]. split; [exact H1|]. split; [exact H2|].
  split; [exact H3|]. exists ns'. split; [exact H4|exact H5].
Defined.
